(** * TabRouter: a shallow embedding of [src/routers/TabRouter.js]

    The router factory and the methods of the router it returns are
    embedded as Rocq functions over an explicit store.

    Modelling conventions.
    - A JavaScript object that the router compares with [===]/[!==] (a route,
      a navigation state, a [routes] array) is a value carrying its
      reference [loc]; the literal and spread expressions of the source
      allocate a fresh reference from the store.  Routes and states are
      never mutated once built, so value-with-reference is all the code
      can observe of them.
    - The only object mutated in place is [config.paths]; it lives in the
      store and the codec methods read it from the store when they run.
    - A throwing statement ([TypeError] on a property read of [undefined],
      a failed [invariant]) is an outcome of the error monad [M].
    - Objects used as maps are finite maps of own properties.  The
      factory reads [routeConfigs[routeName]] through the prototype
      chain, so the route configurations come with the names they
      inherit: those of [Object.prototype] for an object literal, none
      for an object created without prototype.  [paths] is an ordinary
      object, whose assignment [paths[routeName] = ...] reaches the
      inherited setter under the key [__proto__].  Frozen objects, a
      patched [Object.prototype] and array lengths beyond 2^32 are not
      modelled.
    - [getScreenConfig] comes from [createConfigGetter], which is not
      part of this file of the repository; it is not embedded. *)

From stdpp Require Import gmap strings list fin_maps.
From Stdlib Require Import ZArith Ascii.

Local Open Scope string_scope.
Set Warnings "-register-all".

(** ** References, store and the monad of the embedding *)

Definition loc := nat.

Inductive exn := TypeError | InvariantViolation.

Inductive Outcome (A : Type) :=
| Ret (a : A)
| Throw (e : exn).
Arguments Ret {A} a.
Arguments Throw {A} e.

(** [next_ref] is the next fresh reference; [objects] holds the mutable
    string-valued objects (the [paths] tables). *)
Record Store := MkStore {
  next_ref : loc;
  objects : gmap loc (gmap string string) }.

Definition M (A : Type) : Type := Store -> Outcome A * Store.

Definition ret {A} (a : A) : M A := fun σ => (Ret a, σ).

Definition throw {A} (e : exn) : M A := fun σ => (Throw e, σ).

Definition bind {A B} (m : M A) (k : A -> M B) : M B :=
  fun σ => match m σ with
           | (Ret a, σ') => k a σ'
           | (Throw e, σ') => (Throw e, σ')
           end.

Notation "'let*' x ':=' m 'in' k" := (bind m (fun x => k))
  (at level 10, x name, m at level 100, k at level 200).

Definition alloc : M loc :=
  fun σ => (Ret (next_ref σ), MkStore (S (next_ref σ)) (objects σ)).

(** [{}] used as a string table. *)
Definition new_object : M loc :=
  fun σ => (Ret (next_ref σ),
            MkStore (S (next_ref σ)) (<[next_ref σ := ∅]> (objects σ))).

(** The properties of the object [o] in the store. *)
Definition table (σ : Store) (o : loc) : gmap string string :=
  default ∅ (objects σ !! o).
Arguments table : simpl never.

(** The object [o], for a property read [o[k]]. *)
Definition read_object (o : loc) : M (gmap string string) :=
  fun σ => (Ret (table σ o), σ).

(** Whether an ordinary object with the own properties [t] stores an
    assignment [o[k] = v] of a string [v].  Under the key [__proto__], and
    without an own property of that name, the assignment reaches the
    setter of [Object.prototype], which ignores a string. *)
Definition stores_key (t : gmap string string) (k : string) : bool :=
  negb (bool_decide (k = "__proto__")) || bool_decide (is_Some (t !! k)).

(** [o[k] = v] for a string [v]. *)
Definition write_property (o : loc) (k v : string) : M unit :=
  fun σ =>
    if stores_key (table σ o) k
    then (Ret tt,
          MkStore (next_ref σ)
            (<[o := <[k := v]> (table σ o)]> (objects σ)))
    else (Ret tt, σ).

Fixpoint mapM {A B} (f : A -> M B) (l : list A) : M (list B) :=
  match l with
  | [] => ret []
  | x :: xs => let* y := f x in
               let* ys := mapM f xs in
               ret (y :: ys)
  end.

(** ** JavaScript arrays of objects *)

(** [arr_elems] are the elements [0 .. length-1] ([None] is a hole or
    [undefined]); [arr_props] are the other own properties an assignment
    [a[i] = v] creates when [i] is negative or [undefined]. *)
Record JsArray (A : Type) := MkArray {
  arr_ref : loc;
  arr_elems : list (option A);
  arr_props : list (option Z * A) }.
Arguments MkArray {A} _ _ _.
Arguments arr_ref {A} _.
Arguments arr_elems {A} _.
Arguments arr_props {A} _.

Definition is_element {A} (a : JsArray A) (i : option Z) : option nat :=
  match i with
  | Some z => if bool_decide (0 ≤ z < Z.of_nat (length (arr_elems a)))%Z
              then Some (Z.to_nat z) else None
  | None => None
  end.

Fixpoint assoc {K A} `{EqDecision K} (k : K) (l : list (K * A)) : option A :=
  match l with
  | [] => None
  | (k', v) :: l' => if decide (k' = k) then Some v else assoc k l'
  end.

(** [a[i]] *)
Definition arr_get {A} (a : JsArray A) (i : option Z) : option A :=
  match is_element a i with
  | Some n => mjoin (arr_elems a !! n)
  | None => assoc i (arr_props a)
  end.

(** [a[i] = v]: replaces an element, extends the array with holes when [i]
    is past the end, and creates a plain property otherwise. *)
Definition arr_set {A} (a : JsArray A) (i : option Z) (v : A) : JsArray A :=
  match is_element a i with
  | Some n => MkArray (arr_ref a) (<[n := Some v]> (arr_elems a)) (arr_props a)
  | None =>
      match i with
      | Some z =>
          if bool_decide (0 ≤ z)%Z
          then MkArray (arr_ref a)
                 (arr_elems a
                    ++ replicate (Z.to_nat z - length (arr_elems a)) None
                    ++ [Some v])
                 (arr_props a)
          else MkArray (arr_ref a) (arr_elems a) ((i, v) :: arr_props a)
      | None => MkArray (arr_ref a) (arr_elems a) ((i, v) :: arr_props a)
      end
  end.

(** [[...a]] *)
Definition arr_spread {A} (ref : loc) (a : JsArray A) : JsArray A :=
  MkArray ref (arr_elems a) [].

(** [order[i]] on a plain array of strings. *)
Definition list_get {A} (l : list A) (i : option Z) : option A :=
  match i with
  | Some z => if bool_decide (0 ≤ z)%Z then l !! Z.to_nat z else None
  | None => None
  end.

(** Property-key conversion of a possibly [undefined] string. *)
Definition key_of (k : option string) : string := default "undefined" k.

(** ** Data model *)

Definition Params := gmap string string.

Inductive ActionType :=
| INIT
| BACK
| NAVIGATE
| OtherType (name : string).

Global Instance ActionType_eq_dec : EqDecision ActionType.
Proof. solve_decision. Defined.

Inductive Action := MkAction {
  a_type : ActionType;
  a_key : option string;
  a_routeName : option string;
  a_params : option Params;
  a_action : option Action }.

(** A route and a navigation state are the same kind of object: a
    navigator tab's route is its child router's state with [key] and
    [routeName] merged in.  [r_rest] carries any further own properties
    through the spreads. *)
Inductive Route := MkRoute {
  r_ref : loc;
  r_key : option string;
  r_routeName : option string;
  r_params : option Params;
  r_index : option Z;
  r_routes : option (JsArray Route);
  r_rest : list (string * string) }.

Record PathAndParams := MkPathAndParams {
  pp_path : option string;
  pp_params : option Params }.

(** The router capability a tab's screen may expose. *)
Module Router.
Record t := Make {
  getStateForAction : Action -> option Route -> M (option Route);
  getPathAndParamsForState : Route -> M PathAndParams;
  (** [None] when the router has no such method *)
  getActionForPathAndParams :
    option (string -> option Params -> M (option Action)) }.
End Router.

Record Screen := MkScreen { router : option Router.t }.

Record RouteConfig := MkRouteConfig {
  screen : option Screen;
  (** [Some p] when [typeof routeConfig.path === 'string'] *)
  path : option string }.

(** The route-config object, as its own properties in [Object.keys] order. *)
Definition RouteConfigMap := list (string * RouteConfig).

Record TabRouterConfig := MkConfig {
  cfg_order : option (list string);
  cfg_paths : option loc;
  cfg_initialRouteName : option string;
  cfg_backBehavior : option string }.

(** What the factory closes over. *)
Record Settings := MkSettings {
  routeConfigs : RouteConfigMap;
  order : list string;
  paths : loc;
  initialRouteName : option string;
  initialRouteIndex : Z;
  backBehavior : string;
  shouldBackNavigateToInitialRoute : bool;
  tabRouters : gmap string (option Router.t) }.

(** The property names an ordinary object inherits from
    [Object.prototype]. *)
Definition Object_prototype : list string :=
  ["constructor"; "__defineGetter__"; "__defineSetter__"; "hasOwnProperty";
   "__lookupGetter__"; "__lookupSetter__"; "isPrototypeOf";
   "propertyIsEnumerable"; "toString"; "valueOf"; "__proto__";
   "toLocaleString"].

(** What an object literal inherits. *)
Definition plainObject (name : string) : bool :=
  bool_decide (name ∈ Object_prototype).

(** An object created without a prototype inherits nothing. *)
Definition bareObject (name : string) : bool := false.

(** ** External collaborators *)

(** Modelled from the spec: [NavigationActions.init()], the synthesized
    "init" action handed to a child router of a tab being initialized. *)
Definition NavigationActions_init : Action :=
  MkAction INIT None None None None.

(** Modelled from the spec: [NavigationActions.navigate({routeName})], the
    NAVIGATE action the path decoder builds for a tab. *)
Definition NavigationActions_navigate (routeName : string) : Action :=
  MkAction NAVIGATE None (Some routeName) None None.

(** Modelled from the spec: [getScreenForRouteName], the resolution of a
    route name to its screen; a name without a screen is fatal. *)
Definition getScreenForRouteName (rc : RouteConfigMap) (routeName : option string)
  : M Screen :=
  match assoc (key_of routeName) rc with
  | Some cfg => match screen cfg with
                | Some s => ret s
                | None => throw InvariantViolation
                end
  | None => throw InvariantViolation
  end.

(** ** The router's methods *)

(** [tabRouters[name]], as far as its truthiness is concerned. *)
Definition tabRouter_of (st : Settings) (name : string) : option Router.t :=
  mjoin (tabRouters st !! name).

(** [a !== b] for an object [a] and a possibly [undefined] [b]. *)
Definition differs (a : Route) (b : option Route) : bool :=
  match b with
  | Some r => negb (bool_decide (r_ref a = r_ref r))
  | None => true
  end.

(** [{...state, routes}] *)
Definition with_routes (ref : loc) (s : Route) (rs : JsArray Route) : Route :=
  MkRoute ref (r_key s) (r_routeName s) (r_params s) (r_index s) (Some rs)
          (r_rest s).

(** [{...state, index}] *)
Definition with_index (ref : loc) (s : Route) (i : option Z) : Route :=
  MkRoute ref (r_key s) (r_routeName s) (r_params s) i (r_routes s) (r_rest s).

(** [{...state, index, routes}] *)
Definition with_index_routes (ref : loc) (s : Route) (i : option Z)
    (rs : JsArray Route) : Route :=
  MkRoute ref (r_key s) (r_routeName s) (r_params s) i (Some rs) (r_rest s).

(** [{...childState, key: routeName, routeName}]; spreading a falsy
    [childState] contributes nothing. *)
Definition tab_route (ref : loc) (childState : option Route) (routeName : string)
  : Route :=
  match childState with
  | Some c => MkRoute ref (Some routeName) (Some routeName) (r_params c)
                      (r_index c) (r_routes c) (r_rest c)
  | None => MkRoute ref (Some routeName) (Some routeName) None None None []
  end.

(** [state.routes], a [TypeError] on the following index read when absent. *)
Definition routes_of (s : Route) : M (JsArray Route) :=
  match r_routes s with
  | Some rs => ret rs
  | None => throw TypeError
  end.

(** The callback of [order.map] that builds the default state (lines 60-73). *)
Definition defaultRoute (st : Settings) (action : Action) (routeName : string)
  : M Route :=
  match tabRouter_of st routeName with
  | Some tabRouter =>
      let* childState :=
        Router.getStateForAction tabRouter
          (default NavigationActions_init (a_action action)) None in
      let* ref := alloc in
      ret (tab_route ref childState routeName)
  | None =>
      let* ref := alloc in
      ret (tab_route ref None routeName)
  end.

(** "Establish a default state" (lines 58-79). *)
Definition defaultState (st : Settings) (action : Action) : M Route :=
  let* routes := mapM (defaultRoute st action) (order st) in
  let* aref := alloc in
  let* sref := alloc in
  ret (MkRoute sref None None None (Some (initialRouteIndex st))
               (Some (MkArray aref (Some <$> routes) [])) []).

(** The callback of the last [order.find] (lines 146-167), iterated from
    position [i] on: the result is the final [index] and [routes]. *)
Fixpoint otherTabs (st : Settings) (action : Action) (index : option Z)
    (routes : JsArray Route) (i : nat) (tabs : list string)
  : M (option Z * JsArray Route) :=
  match tabs with
  | [] => ret (index, routes)
  | tabId :: tabs' =>
      if bool_decide (Some (Z.of_nat i) = index)
      then otherTabs st action index routes (S i) tabs'
      else
        let* tabState :=
          match tabRouter_of st tabId with
          | Some tabRouter =>
              Router.getStateForAction tabRouter action
                (arr_get routes (Some (Z.of_nat i)))
          | None => ret (arr_get routes (Some (Z.of_nat i)))
          end in
        match tabState with
        | None => ret (Some (Z.of_nat i), routes)
        | Some t =>
            if differs t (arr_get routes (Some (Z.of_nat i)))
            then
              let* aref := alloc in
              ret (Some (Z.of_nat i),
                   arr_set (arr_spread aref routes) (Some (Z.of_nat i)) t)
            else otherTabs st action index routes (S i) tabs'
        end
  end.

(** "Let other tabs handle it and switch to the first tab that returns a
    new state" (lines 143-177). *)
Definition otherTabsStep (st : Settings) (action : Action) (state : Route)
    (routes0 : JsArray Route) : M (option Route) :=
  let* found := otherTabs st action (r_index state) routes0 0 (order st) in
  let '(index, routes) := found in
  if bool_decide (index ≠ r_index state)
     || negb (bool_decide (arr_ref routes = arr_ref routes0))
  then
    let* ref := alloc in
    ret (Some (with_index_routes ref state index routes))
  else ret (Some state).

(** The first [order.find] (lines 109-115): the position of the first tab
    named [routeName], and the tab id [find] returns. *)
Definition find_tab (routeName : option string) (tabs : list string)
  : option (nat * string) :=
  list_find (fun tabId => Some tabId = routeName) tabs.

(** "Handle tab changing" (lines 99-141). *)
Definition tabChangeStep (st : Settings) (action : Action)
    (inputState : option Route) (state : Route) (routes : JsArray Route)
  : M (option Route) :=
  let activeTabLastState := arr_get routes (r_index state) in
  let* isBackEligible :=
    match a_key action with
    | None => ret true
    | Some k =>
        match activeTabLastState with
        | Some r => ret (bool_decide (Some k = r_key r))
        | None => throw TypeError
        end
    end in
  let activeTabIndex :=
    if bool_decide (a_type action = BACK) && isBackEligible
       && shouldBackNavigateToInitialRoute st
    then Some (initialRouteIndex st)
    else r_index state in
  let found :=
    if bool_decide (a_type action = NAVIGATE)
    then find_tab (a_routeName action) (order st) else None in
  let activeTabIndex :=
    match found with
    | Some (i, _) => Some (Z.of_nat i)
    | None => activeTabIndex
    end in
  (* [!!order.find(...)]: the tab id found, taken as a boolean *)
  let didNavigate :=
    match found with
    | Some (_, tabId) => negb (bool_decide (tabId = ""))
    | None => false
    end in
  let continue : M (option Route) :=
    if negb (bool_decide (activeTabIndex = r_index state))
    then
      let* ref := alloc in
      ret (Some (with_index ref state activeTabIndex))
    else if didNavigate && negb (bool_decide (is_Some inputState))
    then ret (Some state)
    else if didNavigate
    then ret None
    else otherTabsStep st action state routes in
  match (if didNavigate then a_action action else None) with
  | Some childAction =>
      let* newChildState :=
        match tabRouter_of st (key_of (a_routeName action)) with
        | Some tabRouter =>
            Router.getStateForAction tabRouter childAction
              (arr_get routes activeTabIndex)
        | None => ret None
        end in
      match newChildState with
      | Some c =>
          if differs c (arr_get routes activeTabIndex)
          then
            let* aref := alloc in
            let* ref := alloc in
            ret (Some (with_index_routes ref state activeTabIndex
                         (arr_set (arr_spread aref routes) activeTabIndex c)))
          else continue
      | None => continue
      end
  | None => continue
  end.

Section TabRouter.

(** [NavigationActions.mapDeprecatedActionAndWarn] and
    [validateRouteConfigMap] are not part of this file of the repository;
    the router is embedded over any such normalisation and validation. *)
Variable mapDeprecatedActionAndWarn : Action -> Action.
Variable validateRouteConfigMap : RouteConfigMap -> M unit.

(** The object [routeConfigs] is given by its own properties, a
    [RouteConfigMap], and by the property names it inherits from its
    prototype chain: those of [Object.prototype] for an object literal,
    none for an object created without prototype.  What it inherits is
    taken to have neither a string [path] nor a [screen], as the
    functions of [Object.prototype] and that prototype itself have. *)
Variable inherits : string -> bool.

(** [getStateForAction(action, inputState)] (lines 54-178); "Let the
    current tab handle it" is the body after the default state. *)
Definition getStateForAction (st : Settings) (action0 : Action)
    (inputState : option Route) : M (option Route) :=
  let action := mapDeprecatedActionAndWarn action0 in
  let* state :=
    match inputState with
    | Some s => ret s
    | None => defaultState st action
    end in
  let* routes := routes_of state in
  let activeTabLastState := arr_get routes (r_index state) in
  match tabRouter_of st (key_of (list_get (order st) (r_index state))) with
  | Some activeTabRouter =>
      let* activeTabState :=
        Router.getStateForAction activeTabRouter
          (default action (a_action action)) activeTabLastState in
      match activeTabState with
      | None =>
          if bool_decide (is_Some inputState)
          then ret None
          else tabChangeStep st action inputState state routes
      | Some t =>
          if differs t activeTabLastState
          then
            let* aref := alloc in
            let* ref := alloc in
            ret (Some (with_routes ref state
                         (arr_set (arr_spread aref routes) (r_index state) t)))
          else tabChangeStep st action inputState state routes
      end
  | None => tabChangeStep st action inputState state routes
  end.

(** [getPathAndParamsForState(state)] (lines 198-216). *)
Definition getPathAndParamsForState (st : Settings) (state : Route)
  : M PathAndParams :=
  let* routes := routes_of state in
  let route := arr_get routes (r_index state) in
  let routeName := list_get (order st) (r_index state) in
  let* pathsObj := read_object (paths st) in
  let subPath := pathsObj !! key_of routeName in
  let* screen := getScreenForRouteName (routeConfigs st) routeName in
  match route with
  | None => throw TypeError
  | Some route =>
      let params := r_params route in
      match router screen with
      | Some childRouter =>
          let* child := Router.getPathAndParamsForState childRouter route in
          ret (MkPathAndParams
                 (match subPath with
                  | Some p => if bool_decide (p = "") then pp_path child
                              else Some (p ++ "/" ++ key_of (pp_path child))
                  | None => pp_path child
                  end)
                 (match pp_params child with
                  | Some cp => Some (cp ∪ default ∅ params)
                  | None => params
                  end))
      | None => ret (MkPathAndParams subPath params)
      end
  end.

(** [s.split(sep)] for a one-character separator. *)
Fixpoint split (sep : ascii) (s : string) : list string :=
  match s with
  | EmptyString => [EmptyString]
  | String c s' =>
      if Ascii.eqb c sep then EmptyString :: split sep s'
      else match split sep s' with
           | p :: ps => String c p :: ps
           | [] => [String c EmptyString]
           end
  end.

(** [l.find(action => !!action)] on a list of possibly falsy actions. *)
Definition find_truthy {A} (l : list (option A)) : option A :=
  mjoin (snd <$> list_find is_Some l).

(** The callback of the first [order.map] of the decoder (lines 224-238). *)
Definition matchTab (st : Settings) (path0 : string) (params : option Params)
    (tabId : string) : M (option Action) :=
  let parts := split "/" path0 in
  let* pathsObj := read_object (paths st) in
  let pathToTest := pathsObj !! tabId in
  if bool_decide (head parts = pathToTest)
  then
    let action := NavigationActions_navigate tabId in
    let leaf :=
      match params with
      | Some p => MkAction (a_type action) (a_key action) (a_routeName action)
                           (Some p) (a_action action)
      | None => action
      end in
    match tabRouter_of st tabId with
    | Some tabRouter =>
        match Router.getActionForPathAndParams tabRouter with
        | Some decode =>
            let* child := decode (String.concat "/" (tail parts)) params in
            ret (Some (MkAction (a_type action) (a_key action)
                                (a_routeName action) (a_params action) child))
        | None => ret (Some leaf)
        end
    | None => ret (Some leaf)
    end
  else ret None.

(** The callback of the second [order.map] of the decoder (lines 239-242). *)
Definition askTab (st : Settings) (path0 : string) (params : option Params)
    (tabId : string) : M (option Action) :=
  match tabRouter_of st tabId with
  | Some tabRouter =>
      match Router.getActionForPathAndParams tabRouter with
      | Some decode => decode path0 params
      | None => throw TypeError
      end
  | None => ret None
  end.

(** [getActionForPathAndParams(path, params)] (lines 223-243). *)
Definition getActionForPathAndParams (st : Settings) (path0 : string)
    (params : option Params) : M (option Action) :=
  let* matched := mapM (matchTab st path0 params) (order st) in
  match find_truthy matched with
  | Some action => ret (Some action)
  | None =>
      let* asked := mapM (askTab st path0 params) (order st) in
      ret (find_truthy asked)
  end.

(** The router object the factory returns. *)
Definition router_of (st : Settings) : Router.t :=
  Router.Make (getStateForAction st) (getPathAndParamsForState st)
              (Some (getActionForPathAndParams st)).

(** ** The factory *)

(** A string operand of [||]: the empty string is falsy. *)
Definition truthy (s : option string) : option string :=
  match s with
  | Some v => if bool_decide (v = "") then None else Some v
  | None => None
  end.

(** [order.indexOf(name)] *)
Definition indexOf (l : list string) (name : option string) : Z :=
  match list_find (fun x => Some x = name) l with
  | Some (i, _) => Z.of_nat i
  | None => (-1)%Z
  end.

(** The path segment line 42 stores for a tab. *)
Definition segment (routeName : string) (routeConfig : RouteConfig) : string :=
  match path routeConfig with
  | Some p => p
  | None => routeName
  end.

(** [routeConfigs[routeName]] (line 41): an own property of the route
    configurations, or else what the object inherits under that name,
    which has neither a [path] nor a [screen]; [undefined] otherwise. *)
Definition routeConfig_of (rc : RouteConfigMap) (routeName : string)
  : option RouteConfig :=
  match assoc routeName rc with
  | Some routeConfig => Some routeConfig
  | None => if inherits routeName then Some (MkRouteConfig None None) else None
  end.

(** The body of [order.forEach] (lines 40-47), threading [tabRouters],
    which the router only ever tests for truthiness under the names in
    [order]: [null] and a missing property are both [None] there. *)
Fixpoint registerTabs (rc : RouteConfigMap) (pathsRef : loc)
    (tabs : list string) (acc : gmap string (option Router.t))
  : M (gmap string (option Router.t)) :=
  match tabs with
  | [] => ret acc
  | routeName :: tabs' =>
      match routeConfig_of rc routeName with
      | None => throw TypeError
      | Some routeConfig =>
          let* _ := write_property pathsRef routeName
                      (segment routeName routeConfig) in
          registerTabs rc pathsRef tabs'
            (<[routeName := screen routeConfig ≫= router]> acc)
      end
  end.

(** The closed-over settings (lines 31-52). *)
Definition settings_of (rc : RouteConfigMap) (config : TabRouterConfig)
  : M Settings :=
  let* _ := validateRouteConfigMap rc in
  let order := default (fst <$> rc) (cfg_order config) in
  let* pathsRef :=
    match cfg_paths config with
    | Some p => ret p
    | None => new_object
    end in
  let initialRouteName :=
    match truthy (cfg_initialRouteName config) with
    | Some n => Some n
    | None => head order
    end in
  let initialRouteIndex := indexOf order initialRouteName in
  let backBehavior := default "initialRoute" (truthy (cfg_backBehavior config)) in
  let shouldBack := bool_decide (backBehavior = "initialRoute") in
  let* tabRouters := registerTabs rc pathsRef order ∅ in
  if bool_decide (initialRouteIndex = (-1)%Z)
  then throw InvariantViolation
  else ret (MkSettings rc order pathsRef initialRouteName initialRouteIndex
                       backBehavior shouldBack tabRouters).

(** The exported factory (lines 26-247). *)
Definition TabRouter (rc : RouteConfigMap) (config : TabRouterConfig)
  : M Router.t :=
  let* st := settings_of rc config in
  ret (router_of st).

End TabRouter.

(** ** Predicates used in the statements *)

(** A leaf tab: [tabRouters[name]] is falsy. *)
Definition is_leaf (st : Settings) (name : string) : bool :=
  match tabRouter_of st name with
  | Some _ => false
  | None => true
  end.

(** A configuration of leaf tabs only. *)
Definition leaf_only (st : Settings) : bool :=
  forallb (is_leaf st) (order st).

Definition is_some {A} (o : option A) : bool :=
  match o with
  | Some _ => true
  | None => false
  end.

(** The state invariant of the data model: [routes] is a plain array
    holding one route per tab, and [index] points at one of them. *)
Definition state_ok (st : Settings) (s : Route) : bool :=
  match r_routes s, r_index s with
  | Some rs, Some k =>
      bool_decide (0 ≤ k < Z.of_nat (length (order st)))%Z
      && bool_decide (length (arr_elems rs) = length (order st))
      && forallb is_some (arr_elems rs)
  | _, _ => false
  end.

(** What the factory guarantees of the settings it closes over. *)
Definition well_formed (st : Settings) : Prop :=
  initialRouteIndex st = indexOf (order st) (initialRouteName st)
  ∧ initialRouteIndex st ≠ (-1)%Z
  ∧ shouldBackNavigateToInitialRoute st
    = bool_decide (backBehavior st = "initialRoute").

(** The child router [R], offered [a] against the route [r], returns
    [res] (from any store). *)
Definition answers (R : Router.t) (a : Action) (r : option Route)
    (res : option Route) : Prop :=
  ∀ σ, ∃ σ', Router.getStateForAction R a r σ = (Ret res, σ').

(** [R] returns the very route it was offered: it declines to change it. *)
Definition keeps (R : Router.t) (a : Action) (r : Route) : Prop :=
  answers R a (Some r) (Some r).

(** [R] returns the offered route or a falsy result. *)
Definition keeps_or_rejects (R : Router.t) (a : Action) (r : Route) : Prop :=
  ∀ σ, ∃ res σ',
    Router.getStateForAction R a (Some r) σ = (Ret res, σ')
    ∧ (res = None ∨ res = Some r).

(** The active tab lets the action [a] through to the tab-changing step:
    it is a leaf tab, or its child router keeps the active route. *)
Definition active_passes (st : Settings) (a : Action) (s : Route)
    (rs : JsArray Route) : Prop :=
  match tabRouter_of st (key_of (list_get (order st) (r_index s))) with
  | Some R =>
      ∃ r, arr_get rs (r_index s) = Some r
           ∧ keeps R (default a (a_action a)) r
  | None => True
  end.

(** The same on one run: from the store [σ] the active tab lets [a]
    through and leaves the store [σ1]. *)
Definition active_passes_on (st : Settings) (a : Action) (s : Route)
    (rs : JsArray Route) (σ σ1 : Store) : Prop :=
  match tabRouter_of st (key_of (list_get (order st) (r_index s))) with
  | Some R =>
      ∃ r, arr_get rs (r_index s) = Some r
           ∧ Router.getStateForAction R (default a (a_action a)) (Some r) σ
             = (Ret (Some r), σ1)
  | None => σ1 = σ
  end.

(** [i] is the first position of the tab named [T]. *)
Definition position_of (st : Settings) (T : string) (i : nat) : Prop :=
  order st !! i = Some T ∧ ∀ j, j < i → order st !! j ≠ Some T.

(** The inactive tab [name] at position [p] does not react to [a]: its
    stored route is in place and, if the tab owns a child router, that
    router keeps it. *)
Definition untouched (st : Settings) (a : Action) (rs : JsArray Route)
    (p : nat) (name : string) : Prop :=
  ∃ r, arr_get rs (Some (Z.of_nat p)) = Some r
       ∧ match tabRouter_of st name with
         | Some R => keeps R a r
         | None => True
         end.

(** The child router [R] of the tab [name] initializes and, offered [a]
    against the route materialized from its initial state, keeps that
    route (and keeps or rejects it on the action handed to the active
    tab). *)
Definition settles (R : Router.t) (name : string) (a : Action) : Prop :=
  ∀ σ, ∃ c σ',
    Router.getStateForAction R
      (default NavigationActions_init (a_action a)) None σ = (Ret c, σ')
    ∧ ∀ ref, keeps R a (tab_route ref c name)
             ∧ keeps_or_rejects R (default a (a_action a))
                 (tab_route ref c name).

(** What the default state holds for the tab [name]: a route carrying the
    tab's name that the tab's child router, if any, keeps. *)
Definition materialized (st : Settings) (a : Action) (name : string)
    (r : Route) : Prop :=
  r_routeName r = Some name
  ∧ r_key r = Some name
  ∧ match tabRouter_of st name with
    | Some R => keeps R a r ∧ keeps_or_rejects R (default a (a_action a)) r
    | None => True
    end.




(** ** Example configurations *)

(** The normalisation, on actions that are already canonical. *)
Definition mapCanonical (a : Action) : Action := a.

(** A validation that accepts the route configurations. *)
Definition acceptRouteConfigs (rc : RouteConfigMap) : M unit := ret tt.

Definition leafTab : RouteConfig := MkRouteConfig (Some (MkScreen None)) None.

Definition navigatorTab (R : Router.t) : RouteConfig :=
  MkRouteConfig (Some (MkScreen (Some R))) None.

Definition emptyStore : Store := MkStore 0 ∅.

Definition defaultConfig : TabRouterConfig := MkConfig None None None None.

(** An action of a type this router does not interpret. *)
Definition refreshAction : Action :=
  MkAction (OtherType "Refresh") None None None None.

(** [{type: BACK, key}] *)
Definition backAction (key : option string) : Action :=
  MkAction BACK key None None None.

(** Two leaf tabs, [Home] and [Settings]. *)
Definition homeTabs : RouteConfigMap :=
  [("Home", leafTab); ("Settings", leafTab)].

Definition homeConfig : TabRouterConfig :=
  MkConfig None None (Some "Home") (Some "initialRoute").

Definition homeSettings : Settings :=
  MkSettings homeTabs ["Home"; "Settings"] 0 (Some "Home") 0 "initialRoute"
    true (<["Settings" := None]> (<["Home" := None]> ∅)).

Definition homeRoutes : JsArray Route :=
  MkArray 3 [Some (tab_route 1 None "Home"); Some (tab_route 2 None "Settings")]
    [].

Definition homeState (index : Z) : Route :=
  MkRoute 4 None None None (Some index) (Some homeRoutes) [].

(** A child router that answers [null] to whatever it is offered against
    an existing state: it handles nothing once initialized. *)
Definition decliningRouter : Router.t :=
  Router.Make
    (fun _ state =>
       match state with
       | Some _ => ret None
       | None =>
           let* ref := alloc in
           let* aref := alloc in
           let* sref := alloc in
           ret (Some (MkRoute sref None None None (Some 0%Z)
                        (Some (MkArray aref [Some (tab_route ref None "Inner")]
                                 []))
                        []))
       end)
    (fun _ => ret (MkPathAndParams (Some "") None))
    None.

(** Two leaf tabs and a navigator tab whose child router declines. *)
Definition chatTabs : RouteConfigMap :=
  [("Home", leafTab); ("Feed", leafTab); ("Chat", navigatorTab decliningRouter)].

Definition chatSettings : Settings :=
  MkSettings chatTabs ["Home"; "Feed"; "Chat"] 0 (Some "Home") 0 "initialRoute"
    true
    (<["Chat" := Some decliningRouter]>
       (<["Feed" := None]> (<["Home" := None]> ∅))).

Definition chatRoutes : JsArray Route :=
  MkArray 7
    [Some (tab_route 1 None "Home");
     Some (tab_route 2 None "Feed");
     Some (MkRoute 6 (Some "Chat") (Some "Chat") None (Some 0%Z)
             (Some (MkArray 4 [Some (tab_route 3 None "Inner")] [])) [])]
    [].

Definition chatState (index : Z) : Route :=
  MkRoute 8 None None None (Some index) (Some chatRoutes) [].

(** A tab router nested in a tab router: the tab [Mail] owns a router over
    the leaf tabs [Inbox] and [Profile]; the outer router has a leaf tab
    [Profile] of its own. *)
Definition inboxTabs : RouteConfigMap :=
  [("Inbox", leafTab); ("Profile", leafTab)].

Definition inboxSettings : Settings :=
  MkSettings inboxTabs ["Inbox"; "Profile"] 0 (Some "Inbox") 0 "initialRoute"
    true (<["Profile" := None]> (<["Inbox" := None]> ∅)).

Definition inboxRouter : Router.t := router_of mapCanonical inboxSettings.

Definition mailTabs : RouteConfigMap :=
  [("Mail", navigatorTab inboxRouter); ("Profile", leafTab)].

Definition mailSettings : Settings :=
  MkSettings mailTabs ["Mail"; "Profile"] 1 (Some "Mail") 0 "initialRoute" true
    (<["Profile" := None]> (<["Mail" := Some inboxRouter]> ∅)).

Definition mailRoute : Route :=
  MkRoute 6 (Some "Mail") (Some "Mail") None (Some 0%Z)
    (Some (MkArray 4
             [Some (tab_route 2 None "Inbox"); Some (tab_route 3 None "Profile")]
             []))
    [].

Definition mailRoutes : JsArray Route :=
  MkArray 8 [Some mailRoute; Some (tab_route 7 None "Profile")] [].

Definition mailState : Route :=
  MkRoute 9 None None None (Some 0%Z) (Some mailRoutes) [].

(** Tab routers only, three levels deep: [Media] owns a router whose
    single tab [Gallery] owns a router over the leaf tabs [Photos] and
    [Albums]. *)
Definition galleryTabs : RouteConfigMap :=
  [("Photos", leafTab); ("Albums", leafTab)].

Definition gallerySettings : Settings :=
  MkSettings galleryTabs ["Photos"; "Albums"] 0 (Some "Photos") 0
    "initialRoute" true (<["Albums" := None]> (<["Photos" := None]> ∅)).

Definition galleryRouter : Router.t := router_of mapCanonical gallerySettings.

Definition mediaTabs : RouteConfigMap :=
  [("Gallery", navigatorTab galleryRouter)].

Definition mediaSettings : Settings :=
  MkSettings mediaTabs ["Gallery"] 1 (Some "Gallery") 0 "initialRoute" true
    (<["Gallery" := Some galleryRouter]> ∅).

Definition mediaRouter : Router.t := router_of mapCanonical mediaSettings.

Definition shellTabs : RouteConfigMap :=
  [("Home", leafTab); ("Media", navigatorTab mediaRouter)].

Definition shellSettings : Settings :=
  MkSettings shellTabs ["Home"; "Media"] 2 (Some "Home") 0 "initialRoute" true
    (<["Media" := Some mediaRouter]> (<["Home" := None]> ∅)).

(** [{type: INIT, action: {type: NAVIGATE, routeName: "Albums"}}] *)
Definition initToAlbums : Action :=
  MkAction INIT None None None (Some (NavigationActions_navigate "Albums")).

(** The [index] of the state a dispatch returned, if it returned one. *)
Definition returned_index (x : Outcome (option Route) * Store) : option Z :=
  match fst x with
  | Ret (Some s) => r_index s
  | _ => None
  end.

(** A tab whose route name is the empty string. *)
Definition blankTabs : RouteConfigMap := [("", leafTab); ("Feed", leafTab)].

Definition blankSettings : Settings :=
  MkSettings blankTabs [""; "Feed"] 0 (Some "") 0 "initialRoute" true
    (<["Feed" := None]> (<["" := None]> ∅)).

Definition blankState : Route :=
  MkRoute 4 None None None (Some 0%Z)
    (Some (MkArray 3 [Some (tab_route 1 None ""); Some (tab_route 2 None "Feed")]
             []))
    [].

(** The tabs [Home] at path [""] and [Profile] at path ["profile"], built
    over a [paths] object the caller supplied with entries of its own. *)
Definition profileTabs : RouteConfigMap :=
  [("Home", MkRouteConfig (Some (MkScreen None)) (Some ""));
   ("Profile", MkRouteConfig (Some (MkScreen None)) (Some "profile"))].

Definition profileConfig : TabRouterConfig := MkConfig None (Some 0) None None.

Definition suppliedStore : Store :=
  MkStore 1 {[ 0 := <["Home" := "start"]> {[ "Legacy" := "old" ]} ]}.

Definition profileSettings : Settings :=
  MkSettings profileTabs ["Home"; "Profile"] 0 (Some "Home") 0 "initialRoute"
    true (<["Profile" := None]> (<["Home" := None]> ∅)).

Definition profileStore : Store :=
  MkStore 1
    {[ 0 := <["Profile" := "profile"]>
              (<["Home" := ""]> {[ "Legacy" := "old" ]}) ]}.

Definition profileRoutes : JsArray Route :=
  MkArray 3 [Some (tab_route 1 None "Home"); Some (tab_route 2 None "Profile")]
    [].

Definition profileState : Route :=
  MkRoute 4 None None None (Some 1%Z) (Some profileRoutes) [].

(** ** The component resolvers *)

Section ComponentResolvers.

(** [childRouter.getComponentForState(route)]: the method of the child
    router, which the capability record above does not carry. *)
Variable childComponentForState : Router.t -> option Route -> M Screen.

(** [getComponentForState(state)] (lines 180-192); a component is the
    screen it was configured as. *)
Definition getComponentForState (st : Settings) (state : Route) : M Screen :=
  match truthy (list_get (order st) (r_index state)) with
  | None => throw InvariantViolation
  | Some routeName =>
      match tabRouter_of st routeName with
      | Some childRouter =>
          let* routes := routes_of state in
          childComponentForState childRouter (arr_get routes (r_index state))
      | None => getScreenForRouteName (routeConfigs st) (Some routeName)
      end
  end.

End ComponentResolvers.

(** [getComponentForRouteName(routeName)] (lines 194-196). *)
Definition getComponentForRouteName (st : Settings) (routeName : option string)
  : M Screen :=
  getScreenForRouteName (routeConfigs st) routeName.

(** Whether the character [c] occurs in [s]. *)
Fixpoint has_char (c : ascii) (s : string) : bool :=
  match s with
  | EmptyString => false
  | String c' s' => Ascii.eqb c' c || has_char c s'
  end.

(** ** Further example configurations *)

(** [homeTabs] with [backBehavior: "none"]. *)
Definition stayConfig : TabRouterConfig :=
  MkConfig None None (Some "Home") (Some "none").

Definition staySettings : Settings :=
  MkSettings homeTabs ["Home"; "Settings"] 0 (Some "Home") 0 "none" false
    (<["Settings" := None]> (<["Home" := None]> ∅)).

(** [mailState] with the outer tab [Profile] active. *)
Definition mailStateOnProfile : Route := with_index 12 mailState (Some 1%Z).

(** The outer tab [Profile] is active and the router of [Mail] is on its
    own tab [Profile]. *)
Definition mailStateDeep : Route :=
  MkRoute 14 None None None (Some 1%Z)
    (Some (MkArray 11
             [Some (with_index 10 mailRoute (Some 1%Z));
              Some (tab_route 7 None "Profile")]
             []))
    [].

(** [{type: NAVIGATE, routeName, action}] *)
Definition navigateWith (routeName : string) (action : Action) : Action :=
  MkAction NAVIGATE None (Some routeName) None (Some action).

(** A child codec for the examples: it encodes every route as
    ["inbox/unread"] with the params [{folder: "unread"}] and decodes a
    path into a NAVIGATE action to the route named by the path. *)
Definition folderRouter : Router.t :=
  Router.Make
    (fun _ state => ret state)
    (fun _ => ret (MkPathAndParams (Some "inbox/unread")
                     (Some {[ "folder" := "unread" ]})))
    (Some (fun path0 _ => ret (Some (NavigationActions_navigate path0)))).

Definition folderTabs : RouteConfigMap :=
  [("Home", leafTab);
   ("Mail", MkRouteConfig (Some (MkScreen (Some folderRouter))) (Some "mail"))].

Definition folderSettings : Settings :=
  MkSettings folderTabs ["Home"; "Mail"] 0 (Some "Home") 0 "initialRoute" true
    (<["Mail" := Some folderRouter]> (<["Home" := None]> ∅)).

Definition folderStore : Store :=
  MkStore 1 {[ 0 := <["Mail" := "mail"]> {[ "Home" := "Home" ]} ]}.

Definition folderState : Route :=
  MkRoute 4 None None None (Some 1%Z)
    (Some (MkArray 3
             [Some (tab_route 1 None "Home");
              Some (MkRoute 2 (Some "Mail") (Some "Mail")
                      (Some {[ "folder" := "all"; "user" := "ann" ]})
                      None None [])]
             []))
    [].

(** A paths table for [profileTabs] in which the segment of [Profile]
    spans two path components. *)
Definition deepPathStore : Store :=
  MkStore 1 {[ 0 := <["Profile" := "user/profile"]> {[ "Home" := "home" ]} ]}.

(** An [order] that lists a tab without a route configuration. *)
Definition strayConfig : TabRouterConfig :=
  MkConfig (Some ["Home"; "Profile"]) None None None.

(** Three leaf tabs. *)
Definition deskTabs : RouteConfigMap :=
  [("Home", leafTab); ("Feed", leafTab); ("Settings", leafTab)].

Definition deskSettings : Settings :=
  MkSettings deskTabs ["Home"; "Feed"; "Settings"] 0 (Some "Home") 0
    "initialRoute" true
    (<["Settings" := None]> (<["Feed" := None]> (<["Home" := None]> ∅))).

Definition deskRoutes : JsArray Route :=
  MkArray 4
    [Some (tab_route 1 None "Home"); Some (tab_route 2 None "Feed");
     Some (tab_route 3 None "Settings")]
    [].

Definition deskState (index : Z) : Route :=
  MkRoute 5 None None None (Some index) (Some deskRoutes) [].

(** [chatTabs] with [Chat] as the initial tab. *)
Definition chatFirstConfig : TabRouterConfig :=
  MkConfig None None (Some "Chat") None.





(** An [order] that names a member of [Object.prototype]. *)
Definition inheritedConfig : TabRouterConfig :=
  MkConfig (Some ["Home"; "toString"]) None None None.




(** An [initialRouteName] that is no tab. *)
Definition lostConfig : TabRouterConfig :=
  MkConfig None None (Some "Profile") None.

(** A child resolver for configurations without navigator tabs. *)
Definition noChildComponent (R : Router.t) (route : option Route) : M Screen :=
  throw TypeError.

(** The paths table the factory leaves for [chatTabs]. *)
Definition chatStore : Store :=
  MkStore 1
    {[ 0 := <["Chat" := "Chat"]>
              (<["Feed" := "Feed"]> {[ "Home" := "Home" ]}) ]}.

(** * Properties *)

(** ** Arrays and lists *)

Lemma arr_get_nat {A} (a : JsArray A) (i : nat) :
  i < length (arr_elems a) →
  arr_get a (Some (Z.of_nat i)) = mjoin (arr_elems a !! i).
Proof.
  intros Hi. unfold arr_get, is_element.
  rewrite bool_decide_eq_true_2 by lia.
  by rewrite Nat2Z.id.
Qed.

(** [routes = [...a]; routes[k] = v] for a position [k] of [a]. *)
Lemma arr_set_spread {A} (a : JsArray A) (ref : loc) (k : nat) (v : A) :
  k < length (arr_elems a) →
  arr_set (arr_spread ref a) (Some (Z.of_nat k)) v
  = MkArray ref (<[k := Some v]> (arr_elems a)) [].
Proof.
  intros Hk. unfold arr_set, is_element. simpl.
  rewrite bool_decide_eq_true_2 by lia. simpl. by rewrite Nat2Z.id.
Qed.

Lemma arr_set_elems {A} (a : JsArray A) (ref : loc) (k : nat) (v : A) :
  k < length (arr_elems a) →
  arr_elems (arr_set (arr_spread ref a) (Some (Z.of_nat k)) v)
  = <[k := Some v]> (arr_elems a).
Proof. intros Hk. by rewrite arr_set_spread. Qed.

Lemma list_get_nat {A} (l : list A) (i : nat) :
  list_get l (Some (Z.of_nat i)) = l !! i.
Proof.
  unfold list_get. rewrite bool_decide_eq_true_2 by lia.
  by rewrite Nat2Z.id.
Qed.

Lemma differs_same (r : Route) : differs r (Some r) = false.
Proof. unfold differs. by rewrite bool_decide_eq_true_2. Qed.

Lemma is_some_Some {A} (o : option A) : is_some o = true → ∃ x, o = Some x.
Proof. destruct o; [eauto | discriminate]. Qed.

Lemma leaf_only_lookup st i name :
  leaf_only st = true → order st !! i = Some name → tabRouter_of st name = None.
Proof.
  unfold leaf_only. rewrite forallb_forall. intros Hall Hi.
  assert (Hin : In name (order st)).
  { apply list_elem_of_In. by eapply list_elem_of_lookup_2. }
  specialize (Hall _ Hin). unfold is_leaf in Hall.
  by destruct (tabRouter_of st name).
Qed.

Lemma state_ok_inv st s :
  state_ok st s = true →
  ∃ rs k, r_routes s = Some rs ∧ r_index s = Some (Z.of_nat k)
          ∧ k < length (order st)
          ∧ length (arr_elems rs) = length (order st)
          ∧ ∀ i, i < length (order st) →
                 ∃ r, arr_get rs (Some (Z.of_nat i)) = Some r.
Proof.
  unfold state_ok. destruct (r_routes s) as [rs|]; [|discriminate].
  destruct (r_index s) as [k|]; [|discriminate].
  rewrite !andb_true_iff, !bool_decide_eq_true, forallb_forall.
  intros [[Hk Hlen] Hall].
  exists rs, (Z.to_nat k). rewrite Z2Nat.id by lia.
  repeat split; [lia | done |].
  intros i Hi. rewrite arr_get_nat by lia.
  destruct (lookup_lt_is_Some_2 (arr_elems rs) i) as [o Ho]; [lia|].
  rewrite Ho. simpl. apply is_some_Some, Hall.
  apply list_elem_of_In. by eapply list_elem_of_lookup_2.
Qed.



(** ** The broadcast to the other tabs *)

Lemma otherTabs_leaf st a index rs tabs : ∀ i σ,
  Forall (λ name, tabRouter_of st name = None) tabs →
  (∀ j, i ≤ j < i + length tabs → is_Some (arr_get rs (Some (Z.of_nat j)))) →
  otherTabs st a index rs i tabs σ = (Ret (index, rs), σ).
Proof.
  induction tabs as [|tabId tabs IH]; intros i σ Hleaf Hrs; [done|].
  inversion_clear Hleaf as [|?? Hl Hls]. simpl.
  assert (Hnext : otherTabs st a index rs (S i) tabs σ = (Ret (index, rs), σ)).
  { apply IH; [done|]. intros j Hj. apply Hrs. simpl. lia. }
  case_bool_decide; [done|].
  rewrite Hl. destruct (Hrs i) as [r Hr]; [simpl; lia|].
  unfold bind, ret. rewrite Hr, differs_same. done.
Qed.

Lemma otherTabsStep_leaf st a s rs σ :
  leaf_only st = true →
  (∀ j, j < length (order st) → is_Some (arr_get rs (Some (Z.of_nat j)))) →
  otherTabsStep st a s rs σ = (Ret (Some s), σ).
Proof.
  intros Hleaf Hrs. unfold otherTabsStep, bind.
  rewrite otherTabs_leaf.
  - rewrite bool_decide_eq_false_2 by (intros H; by apply H).
    by rewrite bool_decide_eq_true_2.
  - apply Forall_forall. intros name Hin.
    apply list_elem_of_lookup in Hin as [i Hi]. by eapply leaf_only_lookup.
  - intros j Hj. apply Hrs. simpl in Hj. lia.
Qed.

(** ** The tab-changing step *)

(** An action that is neither BACK nor NAVIGATE goes on to the broadcast. *)
Lemma tabChangeStep_other st a inp s rs σ :
  a_type a ≠ BACK → a_type a ≠ NAVIGATE →
  a_key a = None ∨ is_Some (arr_get rs (r_index s)) →
  tabChangeStep st a inp s rs σ = otherTabsStep st a s rs σ.
Proof.
  intros Hb Hn Hk. unfold tabChangeStep.
  rewrite (bool_decide_eq_false_2 _ Hb), (bool_decide_eq_false_2 _ Hn).
  simpl.
  assert (Hsame : bool_decide (r_index s = r_index s) = true)
    by by apply bool_decide_eq_true_2.
  destruct (a_key a) as [k|].
  - destruct Hk as [|[r Hr]]; [done|]. rewrite Hr.
    unfold bind, ret. by rewrite Hsame.
  - unfold bind, ret. by rewrite Hsame.
Qed.

(** A BACK action whose key is not the active route's goes on to the
    broadcast. *)
Lemma tabChangeStep_back_other_key st a inp s rs k r σ :
  a_type a = BACK → a_key a = Some k →
  arr_get rs (r_index s) = Some r → r_key r ≠ Some k →
  tabChangeStep st a inp s rs σ = otherTabsStep st a s rs σ.
Proof.
  intros Hb Hk Hr Hne. unfold tabChangeStep.
  rewrite Hb, Hk, Hr. unfold bind, ret.
  rewrite (bool_decide_eq_false_2 (Some k = r_key r)) by congruence.
  simpl. by rewrite bool_decide_eq_true_2.
Qed.


(** The broadcast stops at the first tab whose child router answers with a
    falsy result, and leaves [routes] alone. *)
Lemma otherTabs_first_falsy st a index rs R tabId : ∀ d tabs i σ,
  tabs !! d = Some tabId →
  index ≠ Some (Z.of_nat (i + d)) →
  tabRouter_of st tabId = Some R →
  answers R a (arr_get rs (Some (Z.of_nat (i + d)))) None →
  (∀ e name, e < d → tabs !! e = Some name →
             index ≠ Some (Z.of_nat (i + e)) →
             untouched st a rs (i + e) name) →
  ∃ σ', otherTabs st a index rs i tabs σ
        = (Ret (Some (Z.of_nat (i + d)), rs), σ').
Proof.
  induction d as [|d IH]; intros tabs i σ Hd Hne HR Hfalsy Hun;
    destruct tabs as [|t tabs]; try done; simpl in Hd.
  - simplify_eq. rewrite Nat.add_0_r in *. simpl.
    rewrite bool_decide_eq_false_2 by (intros Heq; by apply Hne).
    rewrite HR. destruct (Hfalsy σ) as [σ1 Hσ1].
    unfold bind. rewrite Hσ1. by eexists.
  - assert (Hnext : ∀ σ1, ∃ σ',
               otherTabs st a index rs (S i) tabs σ1
               = (Ret (Some (Z.of_nat (i + S d)), rs), σ')).
    { intros σ1. replace (i + S d) with (S i + d) in * by lia.
      apply IH; try done. intros e name He Hle Hnee.
      replace (S i + e) with (i + S e) in * by lia.
      apply Hun; [lia | done | done]. }
    simpl. case_bool_decide as Hidx; [apply Hnext|].
    destruct (Hun 0 t) as (r & Hr & Hkeep); [lia | done | |].
    { rewrite Nat.add_0_r. congruence. }
    rewrite Nat.add_0_r in Hr. rewrite Hr.
    destruct (tabRouter_of st t) as [R'|].
    + destruct (Hkeep σ) as [σ1 Hσ1]. unfold bind. rewrite Hσ1, differs_same.
      apply Hnext.
    + unfold bind, ret at 1. rewrite differs_same. apply Hnext.
Qed.


Lemma otherTabsStep_first_falsy st a s rs j tabId R σ :
  order st !! j = Some tabId →
  r_index s ≠ Some (Z.of_nat j) →
  tabRouter_of st tabId = Some R →
  answers R a (arr_get rs (Some (Z.of_nat j))) None →
  (∀ i name, i < j → order st !! i = Some name →
             r_index s ≠ Some (Z.of_nat i) → untouched st a rs i name) →
  ∃ ref σ', otherTabsStep st a s rs σ
            = (Ret (Some (with_index_routes ref s (Some (Z.of_nat j)) rs)), σ').
Proof.
  intros Hj Hne HR Hfalsy Hun. unfold otherTabsStep, bind.
  destruct (otherTabs_first_falsy st a (r_index s) rs R tabId j (order st) 0 σ)
    as [σ' ->]; try done.
  rewrite bool_decide_eq_true_2 by (simpl; congruence). simpl.
  unfold alloc, ret. by eexists _, _.
Qed.

Lemma find_tab_position st T i :
  position_of st T i → find_tab (Some T) (order st) = Some (i, T).
Proof.
  intros [Hi Hfirst]. unfold find_tab. apply list_find_Some.
  split_and!; [done | done |].
  intros j y Hj Hlt ?. apply (Hfirst j Hlt). congruence.
Qed.

(** The tab-changing step on a plain NAVIGATE action to the tab [T]. *)
Lemma tabChangeStep_navigate st a inp s rs T i σ :
  a_type a = NAVIGATE → a_key a = None → a_routeName a = Some T →
  a_action a = None →
  position_of st T i →
  tabChangeStep st a inp s rs σ
  = if bool_decide (Some (Z.of_nat i) = r_index s)
    then if bool_decide (T = "")
         then otherTabsStep st a s rs σ
         else match inp with
              | Some _ => (Ret None, σ)
              | None => (Ret (Some s), σ)
              end
    else (Ret (Some (with_index (next_ref σ) s (Some (Z.of_nat i)))),
          MkStore (S (next_ref σ)) (objects σ)).
Proof.
  intros Ht Hk Hn Ha Hpos. unfold tabChangeStep.
  rewrite Ht, Hk, Hn, Ha, (find_tab_position _ _ _ Hpos). simpl.
  destruct (bool_decide (T = "")); simpl;
    destruct (bool_decide (Some (Z.of_nat i) = r_index s)); simpl;
    try done.
  by destruct inp.
Qed.

(** The tab-changing step on an eligible BACK action. *)
Lemma tabChangeStep_back st a inp s rs σ :
  a_type a = BACK →
  shouldBackNavigateToInitialRoute st = true →
  a_key a = None
  ∨ (∃ r, arr_get rs (r_index s) = Some r ∧ a_key a = r_key r) →
  r_index s ≠ Some (initialRouteIndex st) →
  tabChangeStep st a inp s rs σ
  = (Ret (Some (with_index (next_ref σ) s (Some (initialRouteIndex st)))),
     MkStore (S (next_ref σ)) (objects σ)).
Proof.
  intros Ht Hsb Hk Hne. unfold tabChangeStep. rewrite Ht, Hsb. simpl.
  assert (Hd : bool_decide (Some (initialRouteIndex st) = r_index s) = false)
    by (apply bool_decide_eq_false_2; congruence).
  destruct (a_key a) as [k|] eqn:Hkey.
  - destruct Hk as [|(r & Hr & Hkr)]; [done|]. rewrite Hr.
    unfold bind, ret at 1.
    rewrite (bool_decide_eq_true_2 (Some k = r_key r)) by done.
    simpl. by rewrite Hd.
  - unfold bind, ret at 1. simpl. by rewrite Hd.
Qed.

(** ** The default state *)

Lemma indexOf_found l name :
  indexOf l name ≠ (-1)%Z →
  ∃ k n, indexOf l name = Z.of_nat k ∧ l !! k = Some n ∧ name = Some n.
Proof.
  unfold indexOf. destruct (list_find _ l) as [[k n]|] eqn:Hfind; [|done].
  intros _. apply list_find_Some in Hfind as (Hk & Hn & _). eauto.
Qed.

Lemma mapM_defaultRoute st a tabs :
  (∀ name R, name ∈ tabs → tabRouter_of st name = Some R → settles R name a) →
  ∀ σ, ∃ routes σ',
    mapM (defaultRoute st a) tabs σ = (Ret routes, σ')
    ∧ Forall2 (materialized st a) tabs routes.
Proof.
  induction tabs as [|name tabs IH]; intros Hset σ.
  { exists [], σ. by split; [|constructor]. }
  assert (Hhead : ∃ r σ1, defaultRoute st a name σ = (Ret r, σ1)
                          ∧ materialized st a name r).
  { unfold defaultRoute, materialized.
    destruct (tabRouter_of st name) as [R|] eqn:HR.
    - destruct (Hset name R (list_elem_of_here _ _) HR σ)
        as (c & σ1 & Hc & Hkeep).
      unfold bind. rewrite Hc. simpl.
      eexists _, _. split; [done|].
      destruct (Hkeep (next_ref σ1)) as [? ?].
      by destruct c.
    - unfold bind. simpl. by eexists _, _. }
  destruct Hhead as (r & σ1 & Hr & Hmat).
  destruct (IH (λ n R Hn, Hset n R (list_elem_of_further _ _ _ Hn)) σ1)
    as (routes & σ2 & Hroutes & Hall).
  exists (r :: routes), σ2. split; [|by constructor].
  simpl. unfold bind at 1. rewrite Hr.
  unfold bind at 1. by rewrite Hroutes.
Qed.

(** The broadcast never answers with a falsy result. *)
Lemma otherTabsStep_not_null st a s rs σ :
  fst (otherTabsStep st a s rs σ) ≠ Ret None.
Proof.
  unfold otherTabsStep, bind, alloc, ret.
  repeat case_match; simpl; congruence.
Qed.

(** Without an input state the tab-changing step never answers [null]. *)
Lemma tabChangeStep_no_input_not_null st a s rs σ :
  fst (tabChangeStep st a None s rs σ) ≠ Ret None.
Proof.
  pose proof (otherTabsStep_not_null st a s rs) as Hother.
  unfold tabChangeStep, bind, alloc, ret, throw.
  repeat (case_match; simpl in *; simplify_eq; try congruence);
    try (by apply Hother);
    match goal with
    | H : otherTabsStep _ _ _ _ ?σ = _ |- _ =>
        specialize (Hother σ); rewrite H in Hother; simpl in Hother; congruence
    | _ => idtac
    end.
  all: simpl; congruence.
Qed.

(** ** The factory *)

Section Factory.

Variable inherits : string -> bool.

Lemma routeConfig_of_own rc name routeConfig :
  assoc name rc = Some routeConfig →
  routeConfig_of inherits rc name = Some routeConfig.
Proof. intros H. unfold routeConfig_of. by rewrite H. Qed.

Lemma stores_key_other t k : k ≠ "__proto__" → stores_key t k = true.
Proof. intros Hk. unfold stores_key. by rewrite bool_decide_eq_false_2. Qed.

(** One assignment [paths[k] = v]. *)
Lemma write_property_spec p k v σ :
  ∃ σ', write_property p k v σ = (Ret tt, σ')
        ∧ next_ref σ' = next_ref σ
        ∧ (∀ q, q ≠ p → objects σ' !! q = objects σ !! q)
        ∧ (∀ k', k' ≠ k → table σ' p !! k' = table σ p !! k')
        ∧ table σ' p !! k
          = (if stores_key (table σ p) k then Some v else table σ p !! k)
        ∧ (stores_key (table σ p) k = true →
           objects σ' !! p = Some (table σ' p))
        ∧ (is_Some (objects σ !! p) → objects σ' !! p = Some (table σ' p)).
Proof.
  unfold write_property. destruct (stores_key (table σ p) k) eqn:Hst.
  - set (σ' := MkStore (next_ref σ)
                  (<[p := <[k := v]> (table σ p)]> (objects σ))).
    assert (Ht : table σ' p = <[k := v]> (table σ p)).
    { unfold table at 1. simpl. by rewrite lookup_insert_eq. }
    exists σ'. split_and!; try done.
    + intros q Hq. simpl. by rewrite lookup_insert_ne.
    + intros k' Hk'. by rewrite Ht, lookup_insert_ne.
    + by rewrite Ht, lookup_insert_eq.
    + intros _. rewrite Ht. simpl. by rewrite lookup_insert_eq.
    + intros _. rewrite Ht. simpl. by rewrite lookup_insert_eq.
  - exists σ. split_and!; try done.
    intros [t Ht]. unfold table. by rewrite Ht.
Qed.

(** An own property [__proto__] stays one, and none appears. *)
Lemma write_property_own p k v σ σ' :
  write_property p k v σ = (Ret tt, σ') →
  is_Some (table σ' p !! "__proto__") ↔ is_Some (table σ p !! "__proto__").
Proof.
  intros Hrun.
  destruct (write_property_spec p k v σ)
    as (σ1 & Hw & _ & _ & Hother & Hk & _).
  rewrite Hw in Hrun. injection Hrun as <-.
  destruct (decide ("__proto__" = k)) as [<-|Hne]; [|by rewrite Hother].
  rewrite Hk. unfold stores_key. rewrite bool_decide_eq_true_2 by done.
  simpl. case_bool_decide as Hown; [|done]. split; [done | eauto].
Qed.

Lemma registerTabs_spec rc p tabs : ∀ acc σ tr σ',
  registerTabs inherits rc p tabs acc σ = (Ret tr, σ') →
  next_ref σ' = next_ref σ
  ∧ (∀ q, q ≠ p → objects σ' !! q = objects σ !! q)
  ∧ ((∃ name, name ∈ tabs ∧ name ≠ "__proto__") →
     objects σ' !! p = Some (table σ' p))
  ∧ (∀ name, name ∈ tabs →
       ∃ routeConfig, routeConfig_of inherits rc name = Some routeConfig
         ∧ table σ' p !! name
           = (if stores_key (table σ p) name
              then Some (segment name routeConfig)
              else table σ p !! name)
         ∧ tr !! name = Some (screen routeConfig ≫= router))
  ∧ (∀ k, k ∉ tabs →
       table σ' p !! k = table σ p !! k ∧ tr !! k = acc !! k)
  ∧ (is_Some (objects σ !! p) → objects σ' !! p = Some (table σ' p)).
Proof.
  induction tabs as [|name tabs IH]; intros acc σ tr σ' Hrun; simpl in Hrun.
  { unfold ret in Hrun. simplify_eq. split_and!; try done.
    - intros (name & Hin & _). by apply elem_of_nil in Hin.
    - intros name Hin. by apply elem_of_nil in Hin.
    - intros [t Ht]. unfold table. by rewrite Ht. }
  destruct (routeConfig_of inherits rc name) as [routeConfig|] eqn:Hcfg;
    [|done].
  unfold bind in Hrun.
  destruct (write_property_spec p name (segment name routeConfig) σ)
    as (σm & Hw & Hnextm & Hotherm & Hrestm & Hnamem & Hobjm & Hkeepm).
  pose proof (write_property_own _ _ _ _ _ Hw) as Hown.
  rewrite Hw in Hrun.
  apply IH in Hrun as (Hnext & Hother & Hsome & Hin & Hout & Hkeep).
  assert (Hstores : ∀ k, stores_key (table σm p) k = stores_key (table σ p) k).
  { intros k. unfold stores_key.
    destruct (decide (k = "__proto__")) as [->|Hk].
    - rewrite !bool_decide_eq_true_2 by done. simpl.
      apply bool_decide_ext. exact Hown.
    - by rewrite !(bool_decide_eq_false_2 (k = "__proto__")). }
  split_and!.
  - congruence.
  - intros q Hq. rewrite Hother by done. by apply Hotherm.
  - intros (n & Hn & Hne).
    destruct (decide (name = "__proto__")) as [Hproto|Hproto].
    + apply Hsome. exists n. split; [|done].
      apply elem_of_cons in Hn as [->|]; [congruence | done].
    + apply Hkeep. rewrite Hobjm; [eauto|]. by apply stores_key_other.
  - intros n Hn. destruct (decide (n ∈ tabs)) as [Hn'|Hn'].
    + destruct (Hin n Hn') as (c & Hc & Ht & Htr).
      exists c. split_and!; [done | | done].
      rewrite Ht, Hstores.
      destruct (stores_key (table σ p) n) eqn:Hst; [done|].
      destruct (decide (n = name)) as [->|Hne]; [|by apply Hrestm].
      by rewrite Hnamem, Hst.
    + apply elem_of_cons in Hn as [->|]; [|done].
      exists routeConfig. destruct (Hout name Hn') as [-> ->].
      split_and!; [done | done |]. by rewrite lookup_insert_eq.
  - intros k Hk. apply not_elem_of_cons in Hk as [Hne Hk].
    destruct (Hout k Hk) as [-> ->]. split.
    + by apply Hrestm.
    + by rewrite lookup_insert_ne.
  - intros Hp. apply Hkeep. rewrite (Hkeepm Hp). eauto.
Qed.




End Factory.

(** ** The path codec *)

(** The decoder's test of a leaf tab whose path segment is [seg]. *)
Lemma matchTab_leaf st path0 params tabId seg σ :
  table σ (paths st) !! tabId = Some seg →
  tabRouter_of st tabId = None →
  matchTab st path0 params tabId σ
  = (Ret (if bool_decide (head (split "/" path0) = Some seg)
          then Some (MkAction NAVIGATE None (Some tabId) params None)
          else None), σ).
Proof.
  intros Hseg Hleaf. unfold matchTab, bind, read_object.
  rewrite Hseg, Hleaf. case_bool_decide; [|done].
  by destruct params.
Qed.

(** The encoder on a leaf tab whose path segment is [seg]. *)
Lemma getPathAndParamsForState_leaf st s rs k name routeConfig r seg σ :
  r_routes s = Some rs → r_index s = Some (Z.of_nat k) →
  order st !! k = Some name →
  arr_get rs (Some (Z.of_nat k)) = Some r →
  assoc name (routeConfigs st) = Some routeConfig →
  screen routeConfig = Some (MkScreen None) →
  table σ (paths st) !! name = Some seg →
  getPathAndParamsForState st s σ
  = (Ret (MkPathAndParams (Some seg) (r_params r)), σ).
Proof.
  intros Hrs Hk Hname Hr Hcfg Hscreen Hseg.
  unfold getPathAndParamsForState, routes_of. rewrite Hrs.
  unfold bind, ret at 1, read_object. rewrite Hk, list_get_nat, Hname, Hr.
  unfold getScreenForRouteName. simpl. by rewrite Hcfg, Hscreen, Hseg.
Qed.

Section Properties.

Variable mapDeprecatedActionAndWarn : Action -> Action.
Variable validateRouteConfigMap : RouteConfigMap -> M unit.
Variable inherits : string -> bool.

(** With leaf tabs only, a dispatch against an existing state starts at
    the tab-changing step. *)
Lemma getStateForAction_leaf st a s rs k σ :
  leaf_only st = true →
  r_routes s = Some rs → r_index s = Some (Z.of_nat k) →
  k < length (order st) →
  getStateForAction mapDeprecatedActionAndWarn st a (Some s) σ
  = tabChangeStep st (mapDeprecatedActionAndWarn a) (Some s) s rs σ.
Proof.
  intros Hleaf Hrs Hk Hlt. unfold getStateForAction.
  unfold bind at 1. simpl. unfold routes_of. rewrite Hrs. unfold bind, ret at 1.
  rewrite Hk, list_get_nat.
  destruct (lookup_lt_is_Some_2 (order st) k Hlt) as [name Hname].
  rewrite Hname. simpl. by rewrite (leaf_only_lookup _ _ _ Hleaf Hname).
Qed.

(** C3. For every existing input state [s] that satisfies the state
    invariant (valid index, one route per tab), in a configuration of leaf
    tabs only, and every action whose type is neither BACK nor NAVIGATE,
    [getStateForAction(action, s)] returns exactly the input state [s]:
    the same reference, [index] and [routes] unchanged.  Nothing is
    allocated on the way. *)
Theorem unrelated_action_returns_input_state st a s σ :
  leaf_only st = true →
  state_ok st s = true →
  a_type (mapDeprecatedActionAndWarn a) ≠ BACK →
  a_type (mapDeprecatedActionAndWarn a) ≠ NAVIGATE →
  getStateForAction mapDeprecatedActionAndWarn st a (Some s) σ = (Ret (Some s), σ).
Proof.
  intros Hleaf Hok Hb Hn.
  destruct (state_ok_inv _ _ Hok) as (rs & k & Hrs & Hk & Hlt & Hlen & Hall).
  rewrite (getStateForAction_leaf st a s rs k) by done.
  rewrite tabChangeStep_other; [| done | done |].
  - apply otherTabsStep_leaf; [done|]. intros j Hj.
    destruct (Hall j Hj) as [r ->]. eauto.
  - right. rewrite Hk. destruct (Hall k Hlt) as [r ->]. eauto.
Qed.

(** C8. For every configuration of leaf tabs only (whatever its
    [backBehavior], "initialRoute" included) and every input state [s],
    dispatching [{type: BACK, key}] with a [key] that is not the active
    route's key leaves [index] unchanged: the dispatch returns the input
    state itself. *)
Theorem back_with_other_key_is_ineligible st a s rs key r σ :
  leaf_only st = true →
  state_ok st s = true →
  a_type (mapDeprecatedActionAndWarn a) = BACK →
  a_key (mapDeprecatedActionAndWarn a) = Some key →
  r_routes s = Some rs →
  arr_get rs (r_index s) = Some r →
  r_key r ≠ Some key →
  getStateForAction mapDeprecatedActionAndWarn st a (Some s) σ = (Ret (Some s), σ).
Proof.
  intros Hleaf Hok Hb Hkey Hrs Hr Hne.
  destruct (state_ok_inv _ _ Hok) as (rs' & k & Hrs' & Hk & Hlt & Hlen & Hall).
  assert (rs' = rs) as -> by congruence.
  rewrite (getStateForAction_leaf st a s rs k) by done.
  rewrite (tabChangeStep_back_other_key _ _ _ _ _ key r) by done.
  apply otherTabsStep_leaf; [done|]. intros j Hj.
  destruct (Hall j Hj) as [r' ->]. eauto.
Qed.


(** An existing state whose active tab lets the action through reaches the
    tab-changing step. *)
Lemma getStateForAction_passes st a s rs σ :
  r_routes s = Some rs →
  active_passes st (mapDeprecatedActionAndWarn a) s rs →
  ∃ σ1, getStateForAction mapDeprecatedActionAndWarn st a (Some s) σ
        = tabChangeStep st (mapDeprecatedActionAndWarn a) (Some s) s rs σ1.
Proof.
  intros Hrs Hpass. unfold getStateForAction, active_passes in *.
  unfold bind at 1. simpl. unfold routes_of. rewrite Hrs. unfold bind, ret at 1.
  destruct (tabRouter_of st _) as [R|]; [|by eexists].
  destruct Hpass as (r & Hr & Hkeep). rewrite Hr.
  destruct (Hkeep σ) as [σ1 Hσ1]. rewrite Hσ1, differs_same. by eexists.
Qed.

(** C6. For every caller-supplied input state whose active tab owns a
    child router: if that router, offered [action.action || action]
    against the active route, returns a falsy result, then
    [getStateForAction] returns [null] at once (the store is as the child
    router left it: no later step ran).  Without an input state
    [getStateForAction] never returns [null], whatever the child routers
    answer. *)
Theorem active_child_rejection st a :
  (∀ s rs R σ σ',
      r_routes s = Some rs →
      tabRouter_of st (key_of (list_get (order st) (r_index s))) = Some R →
      Router.getStateForAction R
        (default (mapDeprecatedActionAndWarn a)
           (a_action (mapDeprecatedActionAndWarn a)))
        (arr_get rs (r_index s)) σ = (Ret None, σ') →
      getStateForAction mapDeprecatedActionAndWarn st a (Some s) σ
      = (Ret None, σ'))
  ∧ (∀ σ,
       fst (getStateForAction mapDeprecatedActionAndWarn st a None σ)
       ≠ Ret None).
Proof.
  split.
  - intros s rs R σ σ' Hrs HR Hchild. unfold getStateForAction.
    unfold bind at 1. simpl. unfold routes_of. rewrite Hrs.
    unfold bind, ret at 1. rewrite HR, Hchild. done.
  - intros σ. unfold getStateForAction.
    unfold bind at 1.
    destruct (defaultState st (mapDeprecatedActionAndWarn a) σ)
      as [[s|e] σ1]; [|simpl; congruence].
    unfold routes_of, bind, ret, throw, alloc.
    repeat (case_match; simpl in *; simplify_eq; try congruence);
      try apply tabChangeStep_no_input_not_null.
  all: simpl; congruence.
Qed.

(** The same for one run of the active tab's child router. *)
Lemma getStateForAction_passes_on st a s rs σ σ1 :
  r_routes s = Some rs →
  active_passes_on st (mapDeprecatedActionAndWarn a) s rs σ σ1 →
  getStateForAction mapDeprecatedActionAndWarn st a (Some s) σ
  = tabChangeStep st (mapDeprecatedActionAndWarn a) (Some s) s rs σ1.
Proof.
  intros Hrs Hpass. unfold getStateForAction, active_passes_on in *.
  unfold bind at 1. simpl. unfold routes_of. rewrite Hrs. unfold bind, ret at 1.
  destruct (tabRouter_of st _) as [R|]; [|by subst].
  destruct Hpass as (r & Hr & Hkeep). by rewrite Hr, Hkeep, differs_same.
Qed.

(** C7 (as amended). For every state [s] whose active tab lets the action
    through (the active tab is a leaf tab, or its child router returns the
    active route unchanged) and every tab [T] whose position [i] in [order]
    differs from [s.index], [getStateForAction({type: NAVIGATE,
    routeName: T}, s)] returns a new state [{...s, index: i}]: every
    property is that of [s] but [index], which is [T]'s position, and
    [routes] is the same array as [s.routes].  It is a new object: its
    reference is the one the dispatch allocates once the active tab was
    asked, which is not that of [s], an object the store holds already
    ([r_ref s < next_ref σ1]).  The result does not depend on [T] being a
    leaf tab. *)
Theorem navigate_switches_tab st a s rs T i params σ σ1 :
  r_routes s = Some rs →
  mapDeprecatedActionAndWarn a = MkAction NAVIGATE None (Some T) params None →
  position_of st T i →
  r_index s ≠ Some (Z.of_nat i) →
  active_passes_on st (mapDeprecatedActionAndWarn a) s rs σ σ1 →
  r_ref s < next_ref σ1 →
  ∃ s',
    getStateForAction mapDeprecatedActionAndWarn st a (Some s) σ
    = (Ret (Some s'), MkStore (S (next_ref σ1)) (objects σ1))
    ∧ s' = MkRoute (next_ref σ1) (r_key s) (r_routeName s) (r_params s)
             (Some (Z.of_nat i)) (Some rs) (r_rest s)
    ∧ differs s' (Some s) = true.
Proof.
  intros Hrs Ha Hpos Hne Hpass Hfresh.
  rewrite (getStateForAction_passes_on st a s rs σ σ1 Hrs Hpass).
  rewrite (tabChangeStep_navigate _ _ _ _ _ T i);
    [| by rewrite Ha ..| done].
  rewrite bool_decide_eq_false_2 by congruence.
  eexists. split; [done|]. unfold with_index. rewrite Hrs. split; [done|].
  unfold differs. simpl. rewrite bool_decide_eq_false_2 by lia. done.
Qed.

(** C4. With [backBehavior] "initialRoute", the two leaf tabs
    ["Home"; "Settings"] and the initial route "Home", a BACK action that
    carries no key, or the key of the active route, dispatched on a state
    with [index = 1] returns [{...state, index: 0}]: a state with
    [index = 0] and every other property, [routes] included, that of the
    input state. *)
Theorem back_returns_to_initial_tab st a s rs σ :
  well_formed st →
  order st = ["Home"; "Settings"] →
  initialRouteName st = Some "Home" →
  backBehavior st = "initialRoute" →
  leaf_only st = true →
  r_routes s = Some rs →
  r_index s = Some 1%Z →
  a_type (mapDeprecatedActionAndWarn a) = BACK →
  a_key (mapDeprecatedActionAndWarn a) = None
  ∨ (∃ r, arr_get rs (r_index s) = Some r
          ∧ a_key (mapDeprecatedActionAndWarn a) = r_key r) →
  getStateForAction mapDeprecatedActionAndWarn st a (Some s) σ
  = (Ret (Some (MkRoute (next_ref σ) (r_key s) (r_routeName s) (r_params s)
                  (Some 0%Z) (Some rs) (r_rest s))),
     MkStore (S (next_ref σ)) (objects σ)).
Proof.
  intros (Hidx & _ & Hsb) Hord Hname Hbb Hleaf Hrs Hk Ht Hkey.
  rewrite Hord, Hname in Hidx. rewrite Hbb in Hsb.
  change (indexOf _ _) with 0%Z in Hidx.
  rewrite (getStateForAction_leaf st a s rs 1);
    [| done | done | done | rewrite Hord; simpl; lia].
  rewrite tabChangeStep_back; try done.
  - unfold with_index. by rewrite Hidx, Hrs.
  - rewrite Hidx, Hk. done.
Qed.

(** C5. In the broadcast to the other tabs: when the inactive tab at
    position [j] owns a child router that answers the action with a falsy
    result, and the inactive tabs before it did not react (their stored
    route is in place and their child router, if any, returned it
    unchanged), the step returns [{...state, index: j, routes}] with
    [routes] the very array of the input state: the result has
    [index = j], its [routes] is the input array (same reference, so the
    stored route of [j] and of every other tab is in place) and its other
    properties are those of the input state.  The second part states it
    of the whole dispatch, for an action that is neither BACK nor NAVIGATE
    and that the active tab lets through. *)
Theorem broadcast_falsy_moves_focus_only st a s rs j tabId R :
  r_routes s = Some rs →
  order st !! j = Some tabId →
  r_index s ≠ Some (Z.of_nat j) →
  tabRouter_of st tabId = Some R →
  answers R (mapDeprecatedActionAndWarn a) (arr_get rs (Some (Z.of_nat j))) None →
  (∀ i name, i < j → order st !! i = Some name →
             r_index s ≠ Some (Z.of_nat i) →
             untouched st (mapDeprecatedActionAndWarn a) rs i name) →
  (∀ σ, ∃ ref σ',
      otherTabsStep st (mapDeprecatedActionAndWarn a) s rs σ
      = (Ret (Some (MkRoute ref (r_key s) (r_routeName s) (r_params s)
                      (Some (Z.of_nat j)) (Some rs) (r_rest s))), σ'))
  ∧ (a_type (mapDeprecatedActionAndWarn a) ≠ BACK →
     a_type (mapDeprecatedActionAndWarn a) ≠ NAVIGATE →
     a_key (mapDeprecatedActionAndWarn a) = None ∨ is_Some (arr_get rs (r_index s)) →
     active_passes st (mapDeprecatedActionAndWarn a) s rs →
     ∀ σ, ∃ ref σ',
       getStateForAction mapDeprecatedActionAndWarn st a (Some s) σ
       = (Ret (Some (MkRoute ref (r_key s) (r_routeName s) (r_params s)
                       (Some (Z.of_nat j)) (Some rs) (r_rest s))), σ')).
Proof.
  intros Hrs Hj Hne HR Hfalsy Hun.
  assert (Hstep : ∀ σ, ∃ ref σ',
            otherTabsStep st (mapDeprecatedActionAndWarn a) s rs σ
            = (Ret (Some (MkRoute ref (r_key s) (r_routeName s) (r_params s)
                            (Some (Z.of_nat j)) (Some rs) (r_rest s))), σ')).
  { intros σ.
    destruct (otherTabsStep_first_falsy st (mapDeprecatedActionAndWarn a) s
                rs j tabId R σ Hj Hne HR Hfalsy Hun) as (ref & σ' & Hrun).
    exists ref, σ'. by rewrite Hrun. }
  split; [done|].
  intros Hb Hn Hkey Hpass σ.
  destruct (getStateForAction_passes st a s rs σ Hrs Hpass) as [σ1 ->].
  rewrite tabChangeStep_other by done. apply Hstep.
Qed.

(** Without an input state, and with child routers that settle on the
    action, the dispatch builds the default state and reaches the
    tab-changing step with it. *)
Lemma getStateForAction_default st a σ :
  well_formed st →
  (∀ name R, name ∈ order st → tabRouter_of st name = Some R →
             settles R name (mapDeprecatedActionAndWarn a)) →
  ∃ s rs σ1,
    r_index s = Some (initialRouteIndex st)
    ∧ r_routes s = Some rs
    ∧ length (arr_elems rs) = length (order st)
    ∧ (∀ i name, order st !! i = Some name →
         ∃ r, arr_get rs (Some (Z.of_nat i)) = Some r
              ∧ materialized st (mapDeprecatedActionAndWarn a) name r)
    ∧ is_Some (arr_get rs (r_index s))
    ∧ getStateForAction mapDeprecatedActionAndWarn st a None σ
      = tabChangeStep st (mapDeprecatedActionAndWarn a) None s rs σ1.
Proof.
  intros (Hidx & Hfound & _) Hset.
  destruct (mapM_defaultRoute st (mapDeprecatedActionAndWarn a) (order st)
              Hset σ) as (routes & σ1 & Hroutes & Hall).
  rewrite Hidx in Hfound.
  destruct (indexOf_found _ _ Hfound) as (k & name0 & Hk & Hname0 & _).
  rewrite <- Hidx in Hk.
  set (rs := MkArray (next_ref σ1) (Some <$> routes) []).
  set (s := MkRoute (S (next_ref σ1)) None None None
              (Some (initialRouteIndex st)) (Some rs) []).
  assert (Hget : ∀ i name, order st !! i = Some name →
            ∃ r, arr_get rs (Some (Z.of_nat i)) = Some r
                 ∧ materialized st (mapDeprecatedActionAndWarn a) name r).
  { intros i name Hi.
    destruct (Forall2_lookup_l _ _ _ _ _ Hall Hi) as (r & Hr & Hmat).
    exists r. split; [|done].
    rewrite arr_get_nat.
    - simpl. by rewrite list_lookup_fmap, Hr.
    - simpl. rewrite length_fmap. by eapply lookup_lt_Some. }
  destruct (Hget k name0 Hname0) as (r & Hr & _ & _ & Hkeep).
  rewrite <- Hk in Hr.
  assert (Hrun : ∃ σ2,
            getStateForAction mapDeprecatedActionAndWarn st a None σ
            = tabChangeStep st (mapDeprecatedActionAndWarn a) None s rs σ2).
  { unfold getStateForAction, defaultState.
    unfold bind at 1. unfold bind at 1. rewrite Hroutes.
    unfold bind at 1. simpl. unfold bind at 1. simpl.
    fold rs. fold s. unfold bind at 1. simpl.
    assert (Hactive : (if bool_decide (0 ≤ initialRouteIndex st)%Z
                       then order st !! Z.to_nat (initialRouteIndex st)
                       else None) = Some name0).
    { rewrite Hk, bool_decide_eq_true_2 by lia. by rewrite Nat2Z.id. }
    rewrite Hactive. simpl.
    destruct (tabRouter_of st name0) as [R|]; [|by eexists].
    destruct Hkeep as [_ Hkr].
    destruct (Hkr (MkStore (S (S (next_ref σ1))) (objects σ1)))
      as (res & σ2 & Hres & Hcase).
    unfold bind. rewrite Hr, Hres.
    destruct Hcase as [-> | ->]; [by eexists|].
    rewrite differs_same. by eexists. }
  destruct Hrun as [σ2 Hrun].
  exists s, rs, σ2. split_and!; [done | done | | done | | done].
  - simpl. rewrite length_fmap. symmetry. by eapply Forall2_length.
  - simpl. rewrite Hr. eauto.
Qed.



(** Navigating to the active tab, when its name is not empty, is
    answered with [null] to a caller that supplied the state. *)
Lemma navigate_to_active_tab_is_null st a s rs T i params σ :
  r_routes s = Some rs →
  mapDeprecatedActionAndWarn a = MkAction NAVIGATE None (Some T) params None →
  T ≠ "" →
  position_of st T i →
  r_index s = Some (Z.of_nat i) →
  match tabRouter_of st T with
  | Some R => ∃ r, arr_get rs (Some (Z.of_nat i)) = Some r
                   ∧ keeps_or_rejects R (mapDeprecatedActionAndWarn a) r
  | None => True
  end →
  ∃ σ', getStateForAction mapDeprecatedActionAndWarn st a (Some s) σ
        = (Ret None, σ').
Proof.
  intros Hrs Ha HT Hpos Hk Hactive.
  assert (Hstep : ∀ σ1,
            tabChangeStep st (mapDeprecatedActionAndWarn a) (Some s) s rs σ1
            = (Ret None, σ1)).
  { intros σ1. rewrite (tabChangeStep_navigate _ _ _ _ _ T i);
      [| by rewrite Ha .. | done].
    rewrite bool_decide_eq_true_2 by done.
    by rewrite bool_decide_eq_false_2. }
  unfold getStateForAction.
  unfold bind at 1. simpl. unfold routes_of. rewrite Hrs.
  unfold bind, ret at 1.
  rewrite Hk, list_get_nat, (proj1 Hpos). simpl.
  destruct (tabRouter_of st T) as [R|]; [|by eexists].
  destruct Hactive as (r & Hr & Hkr).
  destruct (Hkr σ) as (res & σ1 & Hres & Hcase).
  replace (default (mapDeprecatedActionAndWarn a)
             (a_action (mapDeprecatedActionAndWarn a)))
    with (mapDeprecatedActionAndWarn a) by by rewrite Ha.
  rewrite Hr, Hres.
  destruct Hcase as [-> | ->]; [by eexists|].
  rewrite differs_same, Hstep. by eexists.
Qed.

(** The same dispatch without an input state returns the default state
    it built. *)
Lemma navigate_to_initial_tab_yields_default_state st a T i params σ :
  well_formed st →
  (∀ name R, name ∈ order st → tabRouter_of st name = Some R →
             settles R name (mapDeprecatedActionAndWarn a)) →
  mapDeprecatedActionAndWarn a = MkAction NAVIGATE None (Some T) params None →
  T ≠ "" →
  position_of st T i →
  initialRouteIndex st = Z.of_nat i →
  ∃ s rs σ',
    getStateForAction mapDeprecatedActionAndWarn st a None σ
    = (Ret (Some s), σ')
    ∧ r_index s = Some (initialRouteIndex st)
    ∧ r_routes s = Some rs
    ∧ ∀ j name, order st !! j = Some name →
        ∃ r, arr_get rs (Some (Z.of_nat j)) = Some r
             ∧ r_routeName r = Some name.
Proof.
  intros Hwf Hset Ha HT Hpos Hinit.
  destruct (getStateForAction_default st a σ Hwf Hset)
    as (s & rs & σ1 & Hidx & Hrs & Hlen & Hget & Hactive & Hrun).
  exists s, rs, σ1. split_and!; try done.
  - rewrite Hrun, (tabChangeStep_navigate _ _ _ _ _ T i);
      [| by rewrite Ha .. | done].
    rewrite bool_decide_eq_true_2 by congruence.
    by rewrite bool_decide_eq_false_2.
  - intros j name Hj. destruct (Hget j name Hj) as (r & Hr & Hn & _). eauto.
Qed.

(** What a successful construction computed. *)
Lemma settings_of_inv rc config σ0 st σ1 :
  settings_of validateRouteConfigMap inherits rc config σ0 = (Ret st, σ1) →
  ∃ σa σb,
    validateRouteConfigMap rc σ0 = (Ret tt, σa)
    ∧ match cfg_paths config with
      | Some p => ret p
      | None => new_object
      end σa = (Ret (paths st), σb)
    ∧ registerTabs inherits rc (paths st) (order st) ∅ σb
      = (Ret (tabRouters st), σ1)
    ∧ routeConfigs st = rc
    ∧ order st = default (fst <$> rc) (cfg_order config)
    ∧ well_formed st.
Proof.
  unfold settings_of, bind. intros Hrun.
  destruct (validateRouteConfigMap rc σ0) as [[[]|e] σa]; [|done].
  destruct (match cfg_paths config with Some p => ret p | None => new_object end σa)
    as [[p|e] σb] eqn:Hp; [|done].
  destruct (registerTabs _ _ _ _ _ σb) as [[tr|e] σc] eqn:Hreg; [|done].
  case_bool_decide as Hidx; [done|].
  unfold ret in Hrun. simplify_eq. simpl.
  exists σa, σb. split_and!; try done.
Qed.

Lemma settings_of_well_formed rc config σ0 st σ1 :
  settings_of validateRouteConfigMap inherits rc config σ0 = (Ret st, σ1) →
  well_formed st.
Proof.
  intros H. by destruct (settings_of_inv _ _ _ _ _ H) as (? & ? & ? & ? & ? & ? & ? & ?).
Qed.

(** The router the factory returns dispatches with [getStateForAction]
    over the settings it closed over. *)
Lemma TabRouter_inv rc config σ0 R σ1 :
  TabRouter mapDeprecatedActionAndWarn validateRouteConfigMap inherits rc
    config σ0
  = (Ret R, σ1) →
  ∃ st, settings_of validateRouteConfigMap inherits rc config σ0
        = (Ret st, σ1)
        ∧ well_formed st
        ∧ R = router_of mapDeprecatedActionAndWarn st
        ∧ Router.getStateForAction R
          = getStateForAction mapDeprecatedActionAndWarn st.
Proof.
  unfold TabRouter, bind. intros Hrun.
  destruct (settings_of validateRouteConfigMap inherits rc config σ0)
    as [[st|e] σ] eqn:Hst; [|done].
  unfold ret in Hrun. injection Hrun as <- <-.
  exists st. split_and!; try done. by eapply settings_of_well_formed.
Qed.


(** C9. For the two leaf tabs [{Home: {path: ""}, Profile: {path:
    "profile"}}] in their key order: [getPathAndParamsForState] on a state
    with [index = 1] returns the path "profile" (and the active route's
    params), and [getActionForPathAndParams("profile", params)] returns the
    NAVIGATE action with [routeName] "Profile". *)
Theorem path_round_trip config σ0 st σ1 :
  cfg_order config = None →
  settings_of validateRouteConfigMap inherits
    [("Home", MkRouteConfig (Some (MkScreen None)) (Some ""));
     ("Profile", MkRouteConfig (Some (MkScreen None)) (Some "profile"))]
    config σ0 = (Ret st, σ1) →
  ∀ σ, objects σ !! paths st = objects σ1 !! paths st →
    (∀ s rs r,
        r_routes s = Some rs → r_index s = Some 1%Z →
        arr_get rs (Some 1%Z) = Some r →
        getPathAndParamsForState st s σ
        = (Ret (MkPathAndParams (Some "profile") (r_params r)), σ))
    ∧ (∀ params,
         getActionForPathAndParams st "profile" params σ
         = (Ret (Some (MkAction NAVIGATE None (Some "Profile") params None)),
            σ)).
Proof.
  intros Hcfg Hrun σ Hσ.
  destruct (settings_of_inv _ _ _ _ _ Hrun)
    as (σa & σb & Hval & Hp & Hreg & Hrc & Hord & Hwf).
  rewrite Hcfg in Hord. simpl in Hord.
  pose proof (registerTabs_spec _ _ _ _ _ _ _ _ Hreg)
    as (Hn & Ho & Hs & Hin & Hnin & _).
  assert (Htable : table σ (paths st) = table σ1 (paths st)).
  { unfold table. by rewrite Hσ. }
  assert (Hhome : table σ (paths st) !! "Home" = Some ""
                  ∧ tabRouter_of st "Home" = None).
  { destruct (Hin "Home") as (c & Hc & Ht & Htr).
    { rewrite Hord. repeat constructor. }
    rewrite stores_key_other in Ht by done.
    injection Hc as <-. unfold tabRouter_of. by rewrite Htable, Htr. }
  assert (Hprofile : table σ (paths st) !! "Profile" = Some "profile"
                     ∧ tabRouter_of st "Profile" = None).
  { destruct (Hin "Profile") as (c & Hc & Ht & Htr).
    { rewrite Hord. repeat constructor. }
    rewrite stores_key_other in Ht by done.
    injection Hc as <-. unfold tabRouter_of. by rewrite Htable, Htr. }
  destruct Hhome as [Hhome Hhomeleaf].
  destruct Hprofile as [Hprofile Hprofileleaf].
  split.
  - intros s rs r Hrs Hk Hr.
    unfold getPathAndParamsForState, routes_of, bind, read_object.
    rewrite Hrs. simpl. rewrite Hk, Hr, Hord, Hrc. simpl.  by rewrite Hprofile.
  - intros params.
    unfold getActionForPathAndParams. rewrite Hord. simpl.
    unfold bind.
    rewrite (matchTab_leaf _ _ _ _ _ _ Hhome Hhomeleaf). simpl.
    rewrite (matchTab_leaf _ _ _ _ _ _ Hprofile Hprofileleaf). simpl.
    by destruct params.
Qed.

End Properties.

(** * The example configurations *)

Example split_path :
  split "/" "profile/settings/about" = ["profile"; "settings"; "about"].
Proof. reflexivity. Qed.

Example split_empty_path : split "/" "" = [""].
Proof. reflexivity. Qed.

Example split_keeps_empty_parts : split "/" "/a//" = [""; "a"; ""; ""].
Proof. reflexivity. Qed.

Example arr_set_past_the_end :
  arr_elems (arr_set (MkArray 0 [Some 1] []) (Some 3%Z) 7)
  = [Some 1; None; None; Some 7].
Proof. reflexivity. Qed.

Example arr_set_negative_index :
  let a := arr_set (MkArray 0 [Some 1] []) (Some (-1)%Z) 7 in
  arr_elems a = [Some 1] ∧ arr_get a (Some (-1)%Z) = Some 7.
Proof. split; reflexivity. Qed.

Example indexOf_absent : indexOf ["Home"; "Settings"] (Some "Profile") = (-1)%Z.
Proof. reflexivity. Qed.

(** The example settings are the ones the factory builds. *)

Lemma homeSettings_built :
  settings_of acceptRouteConfigs plainObject homeTabs homeConfig emptyStore
  = (Ret homeSettings,
     MkStore 1 {[ 0 := <["Settings" := "Settings"]> {[ "Home" := "Home" ]} ]}).
Proof. reflexivity. Qed.

Lemma chatSettings_built :
  settings_of acceptRouteConfigs plainObject chatTabs defaultConfig emptyStore
  = (Ret chatSettings,
     MkStore 1
       {[ 0 := <["Chat" := "Chat"]>
                 (<["Feed" := "Feed"]> {[ "Home" := "Home" ]}) ]}).
Proof. reflexivity. Qed.

Lemma inboxSettings_built :
  settings_of acceptRouteConfigs plainObject inboxTabs defaultConfig emptyStore
  = (Ret inboxSettings,
     MkStore 1 {[ 0 := <["Profile" := "Profile"]> {[ "Inbox" := "Inbox" ]} ]}).
Proof. reflexivity. Qed.

Lemma mailSettings_built :
  settings_of acceptRouteConfigs plainObject mailTabs defaultConfig
    (MkStore 1 {[ 0 := <["Profile" := "Profile"]> {[ "Inbox" := "Inbox" ]} ]})
  = (Ret mailSettings,
     MkStore 2
       (<[ 1 := <["Profile" := "Profile"]> {[ "Mail" := "Mail" ]} ]>
          {[ 0 := <["Profile" := "Profile"]> {[ "Inbox" := "Inbox" ]} ]})).
Proof. reflexivity. Qed.

Lemma shellSettings_built :
  settings_of acceptRouteConfigs plainObject shellTabs defaultConfig
    (MkStore 2 ∅)
  = (Ret shellSettings,
     MkStore 3 {[ 2 := <["Media" := "Media"]> {[ "Home" := "Home" ]} ]}).
Proof. reflexivity. Qed.

Lemma blankSettings_built :
  settings_of acceptRouteConfigs plainObject blankTabs defaultConfig emptyStore
  = (Ret blankSettings,
     MkStore 1 {[ 0 := <["Feed" := "Feed"]> {[ "" := "" ]} ]}).
Proof. reflexivity. Qed.

Lemma profileSettings_built :
  settings_of acceptRouteConfigs plainObject profileTabs profileConfig
    suppliedStore
  = (Ret profileSettings, profileStore).
Proof. reflexivity. Qed.

(** The example states are the default states of their routers. *)

Lemma mailState_default :
  getStateForAction mapCanonical mailSettings NavigationActions_init None
    (MkStore 2 ∅)
  = (Ret (Some mailState), MkStore 10 ∅).
Proof. reflexivity. Qed.


Lemma chatSettings_tabs :
  tabRouter_of chatSettings "Home" = None
  ∧ tabRouter_of chatSettings "Feed" = None
  ∧ tabRouter_of chatSettings "Chat" = Some decliningRouter.
Proof. repeat split; reflexivity. Qed.

Lemma decliningRouter_declines a r : answers decliningRouter a (Some r) None.
Proof. intros σ. by exists σ. Qed.


Lemma position_of_lookup st T i :
  NoDup (order st) → order st !! i = Some T → position_of st T i.
Proof.
  intros Hnd Hi. split; [done|]. intros j Hj Hjt.
  pose proof (NoDup_lookup _ _ _ _ Hnd Hi Hjt). lia.
Qed.

(** * Witnesses and counterexamples *)



(** The same with tab routers only, when the INIT action carries a nested
    action: the router of [Gallery] answers [null] to the nested NAVIGATE
    (its tab is active already), the router of [Media] passes the [null]
    on, and the broadcast of the outer router moves focus to [Media]. *)
Lemma init_with_nested_action_moves_focus :
  well_formed shellSettings
  ∧ initialRouteIndex shellSettings = 0%Z
  ∧ returned_index
      (getStateForAction mapCanonical shellSettings initToAlbums None
         (MkStore 3 ∅))
    = Some 1%Z.
Proof. split_and!; [repeat split | |]; done. Qed.

(** C2. Navigating to the active tab with a caller-supplied state is to
    return [null].  On a tab whose route name is the empty string the
    code returns the input state instead: [!!order.find(...)] takes the
    tab id that was found, [""], as the flag [didNavigate]. *)
Theorem navigate_to_active_blank_tab_returns_state :
  position_of blankSettings "" 0
  ∧ r_index blankState = Some 0%Z
  ∧ getStateForAction mapCanonical blankSettings (NavigationActions_navigate "")
      (Some blankState) (MkStore 5 ∅)
    = (Ret (Some blankState), MkStore 5 ∅).
Proof. split_and!; [split; [done | lia] | done | done]. Qed.

(** C3, witness. *)
Lemma unrelated_action_returns_input_state_witness :
  getStateForAction mapCanonical homeSettings refreshAction
    (Some (homeState 1)) (MkStore 5 ∅)
  = (Ret (Some (homeState 1)), MkStore 5 ∅).
Proof.
  apply (unrelated_action_returns_input_state mapCanonical);
    [reflexivity | reflexivity | discriminate | discriminate].
Defined.

(** C4, witness: BACK carrying the key of the active route. *)
Lemma back_returns_to_initial_tab_witness :
  getStateForAction mapCanonical homeSettings (backAction (Some "Settings"))
    (Some (homeState 1)) (MkStore 5 ∅)
  = (Ret (Some (MkRoute 5 None None None (Some 0%Z) (Some homeRoutes) [])),
     MkStore 6 ∅).
Proof.
  apply (back_returns_to_initial_tab mapCanonical homeSettings
           (backAction (Some "Settings")) (homeState 1) homeRoutes);
    try reflexivity.
  - repeat split; discriminate.
  - right. exists (tab_route 2 None "Settings"). split; reflexivity.
Defined.

(** C5, witness: [Home] is active, [Feed] does not react, the child
    router of [Chat] declines. *)
Lemma broadcast_falsy_moves_focus_only_witness :
  (∀ σ, ∃ ref σ',
      otherTabsStep chatSettings (mapCanonical refreshAction) (chatState 0)
        chatRoutes σ
      = (Ret (Some (MkRoute ref None None None (Some 2%Z) (Some chatRoutes)
                      [])), σ'))
  ∧ (∀ σ, ∃ ref σ',
       getStateForAction mapCanonical chatSettings refreshAction
         (Some (chatState 0)) σ
       = (Ret (Some (MkRoute ref None None None (Some 2%Z) (Some chatRoutes)
                       [])), σ')).
Proof.
  destruct (broadcast_falsy_moves_focus_only mapCanonical chatSettings
              refreshAction (chatState 0) chatRoutes 2 "Chat" decliningRouter)
    as [Hstep Hrun].
  - reflexivity.
  - reflexivity.
  - discriminate.
  - reflexivity.
  - apply decliningRouter_declines.
  - intros i name Hi Hname Hactive.
    destruct i as [|[|i]]; [done | | lia].
    injection Hname as <-. by exists (tab_route 2 None "Feed").
  - split; [exact Hstep|].
    apply Hrun; [discriminate | discriminate | by left | exact I].
Defined.

(** C6, witness: [Chat] is active and its child router declines. *)
Lemma active_child_rejection_witness :
  getStateForAction mapCanonical chatSettings refreshAction
    (Some (chatState 2)) (MkStore 9 ∅)
  = (Ret None, MkStore 9 ∅).
Proof.
  apply (proj1 (active_child_rejection mapCanonical chatSettings refreshAction)
           (chatState 2) chatRoutes decliningRouter);
    reflexivity.
Defined.

(** C7, witness. *)
Lemma navigate_switches_tab_witness :
  ∃ s',
    getStateForAction mapCanonical homeSettings
      (NavigationActions_navigate "Settings") (Some (homeState 0))
      (MkStore 5 ∅)
    = (Ret (Some s'), MkStore 6 ∅)
    ∧ s' = MkRoute 5 None None None (Some 1%Z) (Some homeRoutes) []
    ∧ differs s' (Some (homeState 0)) = true.
Proof.
  apply (navigate_switches_tab mapCanonical homeSettings
           (NavigationActions_navigate "Settings") (homeState 0) homeRoutes
           "Settings" 1 None (MkStore 5 ∅) (MkStore 5 ∅)).
  - reflexivity.
  - reflexivity.
  - split; [reflexivity|]. intros j Hj.
    destruct j as [|j]; [discriminate | lia].
  - discriminate.
  - reflexivity.
  - simpl. lia.
Defined.

(** C7, counterexample. [Profile] is a leaf tab of the outer router, at
    position 1, and the state points at position 0; but the active tab
    [Mail] owns a router with a tab [Profile] of its own, which takes the
    action: the result keeps [index = 0] and carries a new [routes] array
    with the changed route of [Mail]. *)
Lemma navigate_consumed_by_active_navigator :
  position_of mailSettings "Profile" 1
  ∧ is_leaf mailSettings "Profile" = true
  ∧ r_index mailState = Some 0%Z
  ∧ r_routes mailState = Some mailRoutes
  ∧ getStateForAction mapCanonical mailSettings
      (NavigationActions_navigate "Profile") (Some mailState) (MkStore 10 ∅)
    = (Ret (Some (with_routes 12 mailState
                    (MkArray 11
                       [Some (with_index 10 mailRoute (Some 1%Z));
                        Some (tab_route 7 None "Profile")]
                       []))),
       MkStore 13 ∅).
Proof.
  split_and!; try done.
  split; [done|]. intros j Hj. destruct j as [|j]; [discriminate | lia].
Qed.

(** C8, witness: [Settings] is active, the action carries the key of
    [Home]. *)
Lemma back_with_other_key_is_ineligible_witness :
  getStateForAction mapCanonical homeSettings (backAction (Some "Home"))
    (Some (homeState 1)) (MkStore 5 ∅)
  = (Ret (Some (homeState 1)), MkStore 5 ∅).
Proof.
  apply (back_with_other_key_is_ineligible mapCanonical homeSettings
           (backAction (Some "Home")) (homeState 1) homeRoutes "Home"
           (tab_route 2 None "Settings"));
    try reflexivity.
  discriminate.
Defined.

(** C9, witness. *)
Lemma path_round_trip_witness :
  getPathAndParamsForState profileSettings profileState profileStore
  = (Ret (MkPathAndParams (Some "profile") None), profileStore)
  ∧ getActionForPathAndParams profileSettings "profile" None profileStore
    = (Ret (Some (MkAction NAVIGATE None (Some "Profile") None None)),
       profileStore).
Proof.
  destruct (path_round_trip acceptRouteConfigs plainObject profileConfig
              suppliedStore
              profileSettings profileStore eq_refl eq_refl profileStore eq_refl)
    as [Hencode Hdecode].
  split; [|apply Hdecode].
  apply (Hencode profileState profileRoutes (tab_route 2 None "Profile"));
    reflexivity.
Defined.



(** * Further properties *)

(** ** More on arrays *)

Lemma state_ok_with_index st s ref k :
  state_ok st s = true → k < length (order st) →
  state_ok st (with_index ref s (Some (Z.of_nat k))) = true.
Proof.
  unfold state_ok. simpl. destruct (r_routes s); [|done].
  destruct (r_index s); [|done].
  rewrite !andb_true_iff, !bool_decide_eq_true. intros [[? ?] ?] ?.
  split_and!; [lia | lia | done | done].
Qed.

Lemma forallb_is_some_insert (l : list (option Route)) k t :
  forallb is_some l = true → forallb is_some (<[k := Some t]> l) = true.
Proof.
  rewrite !forallb_forall. intros Hall o Ho.
  apply list_elem_of_In, list_elem_of_lookup in Ho as [i Hi].
  destruct (decide (i = k)) as [->|Hne].
  - destruct (decide (k < length l)) as [Hlt|Hge].
    + rewrite list_lookup_insert_eq in Hi by done. by simplify_eq.
    + rewrite list_insert_ge in Hi by lia.
      apply Hall, list_elem_of_In. by eapply list_elem_of_lookup_2.
  - rewrite list_lookup_insert_ne in Hi by done.
    apply Hall, list_elem_of_In. by eapply list_elem_of_lookup_2.
Qed.

(** Replacing the route of a tab, and pointing at a tab, keep the state
    invariant. *)
Lemma state_ok_splice st s rs ref aref k j t :
  state_ok st s = true → r_routes s = Some rs →
  k < length (order st) → j < length (order st) →
  state_ok st (with_index_routes ref s (Some (Z.of_nat j))
                 (arr_set (arr_spread aref rs) (Some (Z.of_nat k)) t)) = true.
Proof.
  unfold state_ok. simpl. intros Hok Hrs Hk Hj. rewrite Hrs in Hok.
  destruct (r_index s); [|done].
  rewrite !andb_true_iff, !bool_decide_eq_true in *.
  destruct Hok as [[? Hlen] Hall].
  rewrite arr_set_elems by lia. rewrite length_insert.
  split_and!; [lia | lia | done |]. by apply forallb_is_some_insert.
Qed.

(** ** The state invariant along a dispatch *)

Lemma list_get_is_Some {A} (l : list A) (i : option Z) :
  is_Some (list_get l i) →
  ∃ k, i = Some (Z.of_nat k) ∧ k < length l.
Proof.
  unfold list_get. destruct i as [z|]; [|by intros [? ?]].
  case_bool_decide; [|by intros [? ?]]. intros Hs.
  exists (Z.to_nat z). rewrite Z2Nat.id by lia. split; [done|].
  by apply lookup_lt_is_Some.
Qed.

Lemma state_ok_index st s :
  state_ok st s = true → is_Some (list_get (order st) (r_index s)).
Proof.
  intros Hok. destruct (state_ok_inv _ _ Hok) as (rs & k & _ & -> & Hk & _).
  rewrite list_get_nat. by apply lookup_lt_is_Some.
Qed.

Lemma find_tab_in_range name tabs i T :
  find_tab name tabs = Some (i, T) →
  is_Some (list_get tabs (Some (Z.of_nat i))).
Proof.
  unfold find_tab. intros H. apply list_find_Some in H as (Hi & _).
  rewrite list_get_nat. eauto.
Qed.

Lemma well_formed_in_range st :
  well_formed st →
  is_Some (list_get (order st) (Some (initialRouteIndex st))).
Proof.
  intros (Hidx & Hfound & _). rewrite Hidx in Hfound.
  destruct (indexOf_found _ _ Hfound) as (k & n & Hk & Hn & _).
  rewrite Hidx, Hk, list_get_nat. eauto.
Qed.

Lemma state_ok_point st s ref i :
  state_ok st s = true → is_Some (list_get (order st) i) →
  state_ok st (with_index ref s i) = true.
Proof.
  intros Hok Hi. destruct (list_get_is_Some _ _ Hi) as (k & -> & Hk).
  by apply state_ok_with_index.
Qed.

Lemma state_ok_replace st s rs ref aref i j t :
  state_ok st s = true → r_routes s = Some rs →
  is_Some (list_get (order st) i) → is_Some (list_get (order st) j) →
  state_ok st (with_index_routes ref s j (arr_set (arr_spread aref rs) i t))
  = true.
Proof.
  intros Hok Hrs Hi Hj.
  destruct (list_get_is_Some _ _ Hi) as (k & -> & Hk).
  destruct (list_get_is_Some _ _ Hj) as (k' & -> & Hk').
  by apply state_ok_splice.
Qed.

Lemma state_ok_focus st s rs ref j :
  state_ok st s = true → r_routes s = Some rs →
  is_Some (list_get (order st) j) →
  state_ok st (with_index_routes ref s j rs) = true.
Proof.
  intros Hok Hrs Hj. destruct (list_get_is_Some _ _ Hj) as (k & -> & Hk).
  revert Hok. unfold state_ok. simpl. rewrite Hrs.
  destruct (r_index s); [|done].
  rewrite !andb_true_iff, !bool_decide_eq_true. intros [[? ?] ?].
  split_and!; [lia | lia | done | done].
Qed.

Lemma state_ok_with_routes st s rs ref aref t :
  state_ok st s = true → r_routes s = Some rs →
  state_ok st (with_routes ref s (arr_set (arr_spread aref rs) (r_index s) t))
  = true.
Proof.
  intros Hok Hrs.
  pose proof (state_ok_replace st s rs ref aref (r_index s) (r_index s) t Hok
                Hrs (state_ok_index _ _ Hok) (state_ok_index _ _ Hok)) as H.
  by destruct s.
Qed.

(** What the broadcast loop can return. *)
Lemma otherTabs_shape st a index rs tabs : ∀ i σ index' rs' σ',
  otherTabs st a index rs i tabs σ = (Ret (index', rs'), σ') →
  (index' = index ∧ rs' = rs)
  ∨ ∃ j, i ≤ j < i + length tabs ∧ index' = Some (Z.of_nat j)
         ∧ (rs' = rs
            ∨ ∃ aref t, rs' = arr_set (arr_spread aref rs) (Some (Z.of_nat j)) t).
Proof.
  induction tabs as [|tabId tabs IH]; intros i σ index' rs' σ' Hrun;
    simpl in Hrun.
  { unfold ret in Hrun. simplify_eq. by left. }
  assert (Hnext : ∀ σ1,
            otherTabs st a index rs (S i) tabs σ1 = (Ret (index', rs'), σ') →
            (index' = index ∧ rs' = rs)
            ∨ ∃ j, i ≤ j < i + length (tabId :: tabs)
                   ∧ index' = Some (Z.of_nat j)
                   ∧ (rs' = rs
                      ∨ ∃ aref t,
                          rs' = arr_set (arr_spread aref rs)
                                  (Some (Z.of_nat j)) t)).
  { intros σ1 H1. destruct (IH _ _ _ _ _ H1) as [?|(j & Hj & ?)]; [by left|].
    right. exists j. split; [simpl; lia | done]. }
  case_bool_decide; [by eapply Hnext|].
  unfold bind, ret, alloc in Hrun.
  repeat (case_match; simplify_eq; try done); try (by eapply Hnext);
    right; exists i; (split; [simpl; lia|]); (split; [done|]); eauto.
Qed.

Lemma otherTabsStep_ok st a s rs σ s' σ' :
  state_ok st s = true → r_routes s = Some rs →
  otherTabsStep st a s rs σ = (Ret (Some s'), σ') →
  state_ok st s' = true.
Proof.
  intros Hok Hrs Hrun. unfold otherTabsStep, bind in Hrun.
  destruct (otherTabs st a (r_index s) rs 0 (order st) σ)
    as [[[index' rs']|e] σ1] eqn:Hloop; [|done].
  destruct (_ || _); [|unfold ret in Hrun; by simplify_eq].
  unfold alloc, ret in Hrun. simplify_eq.
  destruct (otherTabs_shape _ _ _ _ _ _ _ _ _ _ Hloop)
    as [[-> ->]|(j & Hj & -> & Hcase)].
  - apply state_ok_focus; [done | done | by apply state_ok_index].
  - assert (Hin : is_Some (list_get (order st) (Some (Z.of_nat j)))).
    { rewrite list_get_nat. apply lookup_lt_is_Some. simpl in Hj. lia. }
    destruct Hcase as [->|(aref & t & ->)].
    + by apply state_ok_focus.
    + by apply state_ok_replace.
Qed.

Lemma tabChangeStep_ok st a inp s rs σ s' σ' :
  well_formed st →
  state_ok st s = true → r_routes s = Some rs →
  tabChangeStep st a inp s rs σ = (Ret (Some s'), σ') →
  state_ok st s' = true.
Proof.
  intros Hwf Hok Hrs Hrun.
  pose proof (well_formed_in_range _ Hwf) as Hinit.
  pose proof (state_ok_index _ _ Hok) as Hcur.
  pose proof (otherTabsStep_ok st a s rs) as Hother.
  unfold tabChangeStep, bind, alloc, ret, throw in Hrun.
  repeat (case_match; simpl in *; simplify_eq; try done);
    try (by eapply Hother);
    try (apply state_ok_point; [done|]);
    try (apply state_ok_replace; [done | done | |]);
    try done;
    try (by eapply find_tab_in_range);
    try (by apply well_formed_in_range);
    try (by apply state_ok_index).
Qed.

Lemma mapM_length {A B} (f : A → M B) (l : list A) : ∀ σ ys σ',
  mapM f l σ = (Ret ys, σ') → length ys = length l.
Proof.
  induction l as [|x l IH]; intros σ ys σ' Hrun; simpl in Hrun.
  { unfold ret in Hrun. by simplify_eq. }
  unfold bind, ret in Hrun.
  destruct (f x σ) as [[y|e] σ1]; [|done].
  destruct (mapM f l σ1) as [[ys'|e] σ2] eqn:Hrest; [|done].
  simplify_eq. simpl. f_equal. by eapply IH.
Qed.

Lemma defaultState_ok st a σ s σ' :
  well_formed st →
  defaultState st a σ = (Ret s, σ') →
  state_ok st s = true.
Proof.
  intros Hwf Hrun. unfold defaultState, bind, alloc, ret in Hrun.
  destruct (mapM _ _ σ) as [[routes|e] σ1] eqn:Hroutes; [|done].
  simplify_eq. apply mapM_length in Hroutes.
  destruct (list_get_is_Some _ _ (well_formed_in_range _ Hwf))
    as (k & Hk & Hlt).
  injection Hk as Hk.
  unfold state_ok. simpl.
  rewrite !andb_true_iff, !bool_decide_eq_true, length_fmap, forallb_forall.
  split_and!; [lia | lia | done |].
  intros o Ho. apply list_elem_of_In, list_elem_of_fmap in Ho as (r & -> & _).
  done.
Qed.

Section DispatchInvariant.

Variable mapDeprecatedActionAndWarn : Action -> Action.
Variable validateRouteConfigMap : RouteConfigMap -> M unit.

(** X1. The state invariant is kept by every dispatch, whatever the child
    routers answer. *)
Theorem dispatch_keeps_state_invariant st a inputState σ s' σ' :
  well_formed st →
  (∀ s, inputState = Some s → state_ok st s = true) →
  getStateForAction mapDeprecatedActionAndWarn st a inputState σ
  = (Ret (Some s'), σ') →
  state_ok st s' = true.
Proof.
  intros Hwf Hinp Hrun. unfold getStateForAction in Hrun.
  unfold bind at 1 in Hrun.
  destruct (match inputState with
            | Some s => ret s
            | None => defaultState st (mapDeprecatedActionAndWarn a)
            end σ) as [[s|e] σ1] eqn:Hstate; [|done].
  assert (Hok : state_ok st s = true).
  { destruct inputState as [s0|].
    - unfold ret in Hstate. simplify_eq. by apply Hinp.
    - by eapply defaultState_ok. }
  destruct (state_ok_inv _ _ Hok) as (rs & k & Hrs & _).
  unfold routes_of in Hrun. rewrite Hrs in Hrun.
  unfold bind at 1, ret at 1 in Hrun.
  pose proof (tabChangeStep_ok st (mapDeprecatedActionAndWarn a) inputState
                s rs) as Hstep.
  unfold bind, alloc, ret in Hrun.
  repeat (case_match; simplify_eq; try done);
    try (by eapply Hstep);
    by apply state_ok_with_routes.
Qed.


Lemma find_tab_Some_position st T i name :
  find_tab name (order st) = Some (i, T) →
  name = Some T ∧ position_of st T i.
Proof.
  unfold find_tab. intros H. apply list_find_Some in H as (Hi & Hn & Hfirst).
  split; [done|]. split; [done|]. intros j Hj Hjt.
  by apply (Hfirst j T Hjt Hj).
Qed.

(** X2. With leaf tabs only a dispatch on a state that satisfies the invariant
    never throws and never touches [routes]; it answers [null] only to a
    NAVIGATE to the active tab. *)
Theorem leaf_dispatch_outcomes st a s σ :
  well_formed st →
  leaf_only st = true →
  state_ok st s = true →
  ∃ res σ',
    getStateForAction mapDeprecatedActionAndWarn st a (Some s) σ
    = (Ret res, σ')
    ∧ match res with
      | Some s' =>
          r_routes s' = r_routes s
          ∧ (s' = s ∧ σ' = σ
             ∨ r_index s' ≠ r_index s
               ∧ is_Some (list_get (order st) (r_index s')))
      | None =>
          σ' = σ
          ∧ a_type (mapDeprecatedActionAndWarn a) = NAVIGATE
          ∧ ∃ T i, a_routeName (mapDeprecatedActionAndWarn a) = Some T
                   ∧ T ≠ "" ∧ position_of st T i
                   ∧ r_index s = Some (Z.of_nat i)
      end.
Proof.
  intros Hwf Hleaf Hok.
  pose proof (well_formed_in_range _ Hwf) as Hinit.
  destruct (state_ok_inv _ _ Hok) as (rs & k & Hrs & Hk & Hlt & Hlen & Hall).
  rewrite (getStateForAction_leaf mapDeprecatedActionAndWarn st a s rs k)
    by done.
  set (a' := mapDeprecatedActionAndWarn a).
  assert (Hother : ∀ σ1, otherTabsStep st a' s rs σ1 = (Ret (Some s), σ1)).
  { intros σ1. apply otherTabsStep_leaf; [done|]. intros j Hj.
    destruct (Hall j Hj) as [r ->]. eauto. }
  destruct (Hall k Hlt) as [r Hr].
  unfold tabChangeStep. rewrite Hk, Hr.
  assert (Hfound : ∀ i T, find_tab (a_routeName a') (order st) = Some (i, T) →
            tabRouter_of st (key_of (a_routeName a')) = None).
  { intros i T Hf. destruct (find_tab_Some_position _ _ _ _ Hf) as [-> [Hi _]].
    simpl. by eapply leaf_only_lookup. }
  destruct (a_key a') as [key|]; unfold bind at 1, ret at 1.
  all: destruct (bool_decide (a_type a' = NAVIGATE)) eqn:Hnav;
    [apply bool_decide_eq_true in Hnav | apply bool_decide_eq_false in Hnav].
  all: try (destruct (find_tab (a_routeName a') (order st)) as [[i T]|] eqn:Hf;
            [rewrite (Hfound i T eq_refl);
             destruct (find_tab_Some_position _ _ _ _ Hf) as [HT Hpos]|]).
  all: unfold bind, ret, alloc;
    repeat (first [case_bool_decide | case_match]; simplify_eq; try done);
    rewrite ?Hother;
    eexists _, _; (split; [reflexivity|]);
    cbn [r_routes r_index with_index].
  all: try (split; [done|]).
  all: try (by left).
  all: try (right; split; [congruence|]).
  all: try (by eapply find_tab_in_range).
  all: try done.
  all: split; [done|]; eexists _, _; split_and!; try done; congruence.
Qed.

End DispatchInvariant.

(** ** Tab changes *)

(** A BACK action that the back behaviour or the active tab makes idle
    goes on to the broadcast. *)
Lemma tabChangeStep_back_idle st a inp s rs σ :
  a_type a = BACK →
  a_key a = None ∨ is_Some (arr_get rs (r_index s)) →
  shouldBackNavigateToInitialRoute st = false
  ∨ r_index s = Some (initialRouteIndex st) →
  tabChangeStep st a inp s rs σ = otherTabsStep st a s rs σ.
Proof.
  intros Ht Hk Hidle. unfold tabChangeStep. rewrite Ht. simpl.
  assert (Hsame : ∀ b : bool,
            bool_decide
              ((if b && shouldBackNavigateToInitialRoute st
                then Some (initialRouteIndex st) else r_index s)
               = r_index s) = true).
  { intros b. apply bool_decide_eq_true_2.
    destruct Hidle as [-> | ->]; by destruct b, (shouldBackNavigateToInitialRoute st). }
  destruct (a_key a) as [key|].
  - destruct Hk as [|[r Hr]]; [done|]. rewrite Hr.
    unfold bind, ret at 1. by rewrite Hsame.
  - unfold bind, ret at 1. by rewrite Hsame.
Qed.

(** A NAVIGATE action that names no tab goes on to the broadcast. *)
Lemma tabChangeStep_navigate_unknown st a inp s rs σ :
  a_type a = NAVIGATE →
  a_key a = None ∨ is_Some (arr_get rs (r_index s)) →
  find_tab (a_routeName a) (order st) = None →
  tabChangeStep st a inp s rs σ = otherTabsStep st a s rs σ.
Proof.
  intros Ht Hk Hnone. unfold tabChangeStep. rewrite Ht, Hnone. simpl.
  assert (Hsame : bool_decide (r_index s = r_index s) = true)
    by by apply bool_decide_eq_true_2.
  destruct (a_key a) as [key|].
  - destruct Hk as [|[r Hr]]; [done|]. rewrite Hr.
    unfold bind, ret at 1. by rewrite Hsame.
  - unfold bind, ret at 1. by rewrite Hsame.
Qed.

Lemma find_tab_None name tabs :
  (∀ T, name = Some T → T ∉ tabs) → find_tab name tabs = None.
Proof.
  intros Hno. unfold find_tab. apply list_find_None, Forall_forall.
  intros T HT Heq. by apply (Hno T).
Qed.

Section TabChanges.

Variable mapDeprecatedActionAndWarn : Action -> Action.

Lemma state_ok_active st s :
  state_ok st s = true →
  ∃ rs k r, r_routes s = Some rs ∧ r_index s = Some (Z.of_nat k)
            ∧ k < length (order st)
            ∧ arr_get rs (r_index s) = Some r
            ∧ ∀ j, j < length (order st) →
                   is_Some (arr_get rs (Some (Z.of_nat j))).
Proof.
  intros Hok.
  destruct (state_ok_inv _ _ Hok) as (rs & k & Hrs & Hk & Hlt & Hlen & Hall).
  destruct (Hall k Hlt) as [r Hr]. exists rs, k, r.
  split_and!; [done | done | done | by rewrite Hk |].
  intros j Hj. destruct (Hall j Hj) as [r' ->]. eauto.
Qed.

(** X3. BACK is idle when the back behaviour is not "initialRoute", and when
    the initial tab is active already. *)
Theorem back_is_idle st a s σ :
  leaf_only st = true →
  state_ok st s = true →
  a_type (mapDeprecatedActionAndWarn a) = BACK →
  shouldBackNavigateToInitialRoute st = false
  ∨ r_index s = Some (initialRouteIndex st) →
  getStateForAction mapDeprecatedActionAndWarn st a (Some s) σ
  = (Ret (Some s), σ).
Proof.
  intros Hleaf Hok Ht Hidle.
  destruct (state_ok_active _ _ Hok) as (rs & k & r & Hrs & Hk & Hlt & Hr & Hall).
  rewrite (getStateForAction_leaf mapDeprecatedActionAndWarn st a s rs k)
    by done.
  rewrite tabChangeStep_back_idle; [| done | right; eauto | done].
  by apply otherTabsStep_leaf.
Qed.

(** X4. A NAVIGATE action to a route name that is no tab returns the input
    state itself, not [null]. *)
Theorem navigate_to_unknown_route_returns_state st a s σ :
  leaf_only st = true →
  state_ok st s = true →
  a_type (mapDeprecatedActionAndWarn a) = NAVIGATE →
  (∀ T, a_routeName (mapDeprecatedActionAndWarn a) = Some T → T ∉ order st) →
  getStateForAction mapDeprecatedActionAndWarn st a (Some s) σ
  = (Ret (Some s), σ).
Proof.
  intros Hleaf Hok Ht Hno.
  destruct (state_ok_active _ _ Hok) as (rs & k & r & Hrs & Hk & Hlt & Hr & Hall).
  rewrite (getStateForAction_leaf mapDeprecatedActionAndWarn st a s rs k)
    by done.
  rewrite tabChangeStep_navigate_unknown;
    [| done | right; eauto | by apply find_tab_None].
  by apply otherTabsStep_leaf.
Qed.

(** X5. BACK after a tab switch leads to the initial tab, not to the tab that
    was active before the switch: from a tab other than the initial one,
    a NAVIGATE to a third tab followed by a BACK ends on the initial tab,
    with the routes of the first state. *)
Theorem back_after_switch_goes_to_initial_tab st a b s T i params σ :
  well_formed st →
  leaf_only st = true →
  state_ok st s = true →
  shouldBackNavigateToInitialRoute st = true →
  mapDeprecatedActionAndWarn a = MkAction NAVIGATE None (Some T) params None →
  position_of st T i →
  r_index s ≠ Some (Z.of_nat i) →
  r_index s ≠ Some (initialRouteIndex st) →
  initialRouteIndex st ≠ Z.of_nat i →
  a_type (mapDeprecatedActionAndWarn b) = BACK →
  a_key (mapDeprecatedActionAndWarn b) = None →
  ∃ s1 σ1 s2 σ2,
    getStateForAction mapDeprecatedActionAndWarn st a (Some s) σ
    = (Ret (Some s1), σ1)
    ∧ r_index s1 = Some (Z.of_nat i)
    ∧ getStateForAction mapDeprecatedActionAndWarn st b (Some s1) σ1
      = (Ret (Some s2), σ2)
    ∧ r_index s2 = Some (initialRouteIndex st)
    ∧ r_index s2 ≠ r_index s
    ∧ r_routes s2 = r_routes s.
Proof.
  intros Hwf Hleaf Hok Hsb Ha Hpos Hne Hstart Hinit Hb Hkey.
  destruct (state_ok_active _ _ Hok) as (rs & k & r & Hrs & Hk & Hlt & Hr & Hall).
  assert (Hi : i < length (order st)).
  { destruct Hpos as [Hi _]. by eapply lookup_lt_Some. }
  eexists _, _, _, _. split_and!.
  - rewrite (getStateForAction_leaf mapDeprecatedActionAndWarn st a s rs k)
      by done.
    rewrite (tabChangeStep_navigate _ _ _ _ _ T i); [| by rewrite Ha .. | done].
    by rewrite bool_decide_eq_false_2 by congruence.
  - done.
  - rewrite (getStateForAction_leaf mapDeprecatedActionAndWarn st b _ rs i);
      [| done | done | done | done].
    rewrite tabChangeStep_back; [done | done | done | by left |].
    simpl. congruence.
  - done.
  - simpl. congruence.
  - done.
Qed.

(** X6. The first action of a router may be a NAVIGATE: without an input
    state it yields the default routes with the named tab active. *)
Theorem navigate_without_state_opens_tab st a T i params σ :
  well_formed st →
  leaf_only st = true →
  mapDeprecatedActionAndWarn a = MkAction NAVIGATE None (Some T) params None →
  position_of st T i →
  ∃ s rs σ',
    getStateForAction mapDeprecatedActionAndWarn st a None σ
    = (Ret (Some s), σ')
    ∧ r_index s = Some (Z.of_nat i)
    ∧ r_routes s = Some rs
    ∧ length (arr_elems rs) = length (order st)
    ∧ ∀ j name, order st !! j = Some name →
        ∃ r, arr_get rs (Some (Z.of_nat j)) = Some r
             ∧ r_routeName r = Some name ∧ r_key r = Some name.
Proof.
  intros Hwf Hleaf Ha Hpos.
  assert (Hnone : ∀ n R, n ∈ order st → tabRouter_of st n = Some R →
            settles R n (mapDeprecatedActionAndWarn a)).
  { intros n R Hin HR. apply list_elem_of_lookup in Hin as [j Hj].
    by rewrite (leaf_only_lookup _ _ _ Hleaf Hj) in HR. }
  destruct (getStateForAction_default mapDeprecatedActionAndWarn st a σ Hwf
              Hnone)
    as (s & rs & σ1 & Hidx & Hrs & Hlen & Hget & Hactive & Hrun).
  assert (Hroutes : ∀ j name, order st !! j = Some name →
            ∃ r, arr_get rs (Some (Z.of_nat j)) = Some r
                 ∧ r_routeName r = Some name ∧ r_key r = Some name).
  { intros j name Hj. destruct (Hget j name Hj) as (r & Hr & Hn & Hkey & _).
    eauto. }
  rewrite Hrun, (tabChangeStep_navigate _ _ _ _ _ T i);
    [| by rewrite Ha .. | done].
  case_bool_decide as Hsame.
  - case_bool_decide.
    + rewrite otherTabsStep_leaf; [| done |].
      * exists s, rs, σ1. split_and!; try done; congruence.
      * intros j Hj. destruct (lookup_lt_is_Some_2 _ _ Hj) as [n Hn].
        destruct (Hroutes j n Hn) as (r & -> & _). eauto.
    + exists s, rs, σ1. split_and!; try done; congruence.
  - eexists _, rs, _. split_and!; try done.
Qed.

End TabChanges.

(** ** Child routers that change their route *)

(** An action that is no BACK and names no tab goes on to the broadcast. *)
Lemma tabChangeStep_not_for_tabs st a inp s rs σ :
  a_type a ≠ BACK →
  (a_type a = NAVIGATE → ∀ T, a_routeName a = Some T → T ∉ order st) →
  a_key a = None ∨ is_Some (arr_get rs (r_index s)) →
  tabChangeStep st a inp s rs σ = otherTabsStep st a s rs σ.
Proof.
  intros Hb Hn Hk. destruct (decide (a_type a = NAVIGATE)) as [Hnav|Hnav].
  - apply tabChangeStep_navigate_unknown; [done | done |].
    apply find_tab_None. by apply Hn.
  - by apply tabChangeStep_other.
Qed.

(** The broadcast stops at the first navigator tab whose child router
    answers with a new route, and stores that route. *)
Lemma otherTabs_first_change st a index rs R tabId t σ1 : ∀ d tabs i σ,
  tabs !! d = Some tabId →
  index ≠ Some (Z.of_nat (i + d)) →
  tabRouter_of st tabId = Some R →
  Router.getStateForAction R a (arr_get rs (Some (Z.of_nat (i + d)))) σ
  = (Ret (Some t), σ1) →
  differs t (arr_get rs (Some (Z.of_nat (i + d)))) = true →
  (∀ e name, e < d → tabs !! e = Some name →
             index ≠ Some (Z.of_nat (i + e)) →
             tabRouter_of st name = None
             ∧ is_Some (arr_get rs (Some (Z.of_nat (i + e))))) →
  otherTabs st a index rs i tabs σ
  = (Ret (Some (Z.of_nat (i + d)),
          arr_set (arr_spread (next_ref σ1) rs) (Some (Z.of_nat (i + d))) t),
     MkStore (S (next_ref σ1)) (objects σ1)).
Proof.
  induction d as [|d IH]; intros tabs i σ Hd Hne HR Hrun Hdiff Hleaf;
    destruct tabs as [|n tabs]; try done; simpl in Hd.
  - simplify_eq. rewrite Nat.add_0_r in *. simpl.
    rewrite bool_decide_eq_false_2 by (intros Heq; by apply Hne).
    rewrite HR. unfold bind. by rewrite Hrun, Hdiff.
  - assert (Hnext :
      otherTabs st a index rs (S i) tabs σ
      = (Ret (Some (Z.of_nat (i + S d)),
              arr_set (arr_spread (next_ref σ1) rs)
                (Some (Z.of_nat (i + S d))) t),
         MkStore (S (next_ref σ1)) (objects σ1))).
    { replace (i + S d) with (S i + d) in * by lia.
      apply IH; try done. intros e name He Hle Hnee.
      replace (S i + e) with (i + S e) in * by lia.
      apply Hleaf; [lia | done | done]. }
    simpl. case_bool_decide as Hidx; [done|].
    destruct (Hleaf 0 n) as (Hn & r & Hr); [lia | done | |].
    { rewrite Nat.add_0_r. congruence. }
    rewrite Nat.add_0_r in Hr. rewrite Hn, Hr.
    unfold bind, ret at 1. by rewrite differs_same.
Qed.

Section ChildRouters.

Variable mapDeprecatedActionAndWarn : Action -> Action.

(** X7. The active tab comes first: when its child router answers with a new
    route, whatever the action, the dispatch returns [{...state, routes}]:
    every property is that of the input state but [routes], which is a
    new array, the elements of the input array with the new route at the
    active position and no other property.  Both objects are allocated by
    the dispatch, after the child router ran, and nothing else is. *)
Theorem active_child_route_is_stored st a s rs k R t σ σ1 :
  r_routes s = Some rs →
  r_index s = Some (Z.of_nat k) →
  k < length (arr_elems rs) →
  tabRouter_of st (key_of (list_get (order st) (r_index s))) = Some R →
  Router.getStateForAction R
    (default (mapDeprecatedActionAndWarn a)
       (a_action (mapDeprecatedActionAndWarn a)))
    (arr_get rs (r_index s)) σ = (Ret (Some t), σ1) →
  differs t (arr_get rs (r_index s)) = true →
  r_ref s < next_ref σ1 →
  arr_ref rs < next_ref σ1 →
  ∃ s' rs',
    getStateForAction mapDeprecatedActionAndWarn st a (Some s) σ
    = (Ret (Some s'), MkStore (S (S (next_ref σ1))) (objects σ1))
    ∧ s' = MkRoute (S (next_ref σ1)) (r_key s) (r_routeName s) (r_params s)
             (r_index s) (Some rs') (r_rest s)
    ∧ rs' = MkArray (next_ref σ1) (<[k := Some t]> (arr_elems rs)) []
    ∧ differs s' (Some s) = true
    ∧ arr_ref rs' ≠ arr_ref rs.
Proof.
  intros Hrs Hk Hlt HR Hrun Hdiff Hs Hrsref.
  eexists _, _. split_and!.
  - unfold getStateForAction. unfold bind at 1. simpl. unfold routes_of.
    rewrite Hrs. unfold bind, ret at 1. rewrite HR, Hrun, Hdiff.
    unfold alloc, ret. simpl. rewrite Hk, arr_set_spread by done.
    reflexivity.
  - unfold with_routes. by rewrite Hk.
  - done.
  - unfold differs, with_routes. simpl.
    by rewrite bool_decide_eq_false_2 by lia.
  - simpl. lia.
Qed.

(** X8. A NAVIGATE to a tab [T] with a non-empty name that carries a nested
    action hands that action to the child router of [T]; when the router
    answers with a new route the dispatch returns
    [{...state, routes, index}]: [index] is the position of [T], [routes]
    is a new array, the elements of the input array with the new route at
    that position, and every other property is that of the input state.
    Both objects are allocated by the dispatch, after the child router
    ran. *)
Theorem navigate_with_action_updates_target st a s rs T i R sub params c σ σ1 :
  r_routes s = Some rs →
  i < length (arr_elems rs) →
  mapDeprecatedActionAndWarn a
  = MkAction NAVIGATE None (Some T) params (Some sub) →
  T ≠ "" →
  position_of st T i →
  tabRouter_of st (key_of (list_get (order st) (r_index s))) = None →
  tabRouter_of st T = Some R →
  Router.getStateForAction R sub (arr_get rs (Some (Z.of_nat i))) σ
  = (Ret (Some c), σ1) →
  differs c (arr_get rs (Some (Z.of_nat i))) = true →
  r_ref s < next_ref σ1 →
  arr_ref rs < next_ref σ1 →
  ∃ s' rs',
    getStateForAction mapDeprecatedActionAndWarn st a (Some s) σ
    = (Ret (Some s'), MkStore (S (S (next_ref σ1))) (objects σ1))
    ∧ s' = MkRoute (S (next_ref σ1)) (r_key s) (r_routeName s) (r_params s)
             (Some (Z.of_nat i)) (Some rs') (r_rest s)
    ∧ rs' = MkArray (next_ref σ1) (<[i := Some c]> (arr_elems rs)) []
    ∧ differs s' (Some s) = true
    ∧ arr_ref rs' ≠ arr_ref rs.
Proof.
  intros Hrs Hlt Ha HT Hpos Hactive HR Hrun Hdiff Hs Hrsref.
  eexists _, _. split_and!.
  - unfold getStateForAction. unfold bind at 1. simpl. unfold routes_of.
    rewrite Hrs. unfold bind at 1, ret at 1. rewrite Hactive.
    unfold tabChangeStep. rewrite Ha. simpl.
    rewrite (find_tab_position _ _ _ Hpos). simpl.
    rewrite (bool_decide_eq_false_2 (T = "")) by done. simpl.
    rewrite HR. unfold bind. simpl. rewrite Hrun, Hdiff.
    unfold alloc, ret. simpl. rewrite arr_set_spread by done.
    reflexivity.
  - done.
  - done.
  - unfold differs, with_index_routes. simpl.
    by rewrite bool_decide_eq_false_2 by lia.
  - simpl. lia.
Qed.

(** X9. When the child router of the target declines the nested action (a
    falsy answer, or the stored route itself), the NAVIGATE still switches
    to the target tab. *)
Theorem navigate_with_declined_action_switches st a s rs T i R sub params res
    σ σ1 :
  r_routes s = Some rs →
  mapDeprecatedActionAndWarn a
  = MkAction NAVIGATE None (Some T) params (Some sub) →
  T ≠ "" →
  position_of st T i →
  r_index s ≠ Some (Z.of_nat i) →
  tabRouter_of st (key_of (list_get (order st) (r_index s))) = None →
  tabRouter_of st T = Some R →
  Router.getStateForAction R sub (arr_get rs (Some (Z.of_nat i))) σ
  = (Ret res, σ1) →
  res = None ∨ res = arr_get rs (Some (Z.of_nat i)) →
  getStateForAction mapDeprecatedActionAndWarn st a (Some s) σ
  = (Ret (Some (with_index (next_ref σ1) s (Some (Z.of_nat i)))),
     MkStore (S (next_ref σ1)) (objects σ1)).
Proof.
  intros Hrs Ha HT Hpos Hne Hactive HR Hrun Hres.
  unfold getStateForAction. unfold bind at 1. simpl. unfold routes_of.
  rewrite Hrs. unfold bind at 1, ret at 1. rewrite Hactive.
  unfold tabChangeStep. rewrite Ha. simpl.
  rewrite (find_tab_position _ _ _ Hpos). simpl.
  rewrite (bool_decide_eq_false_2 (T = "")) by done. simpl.
  rewrite HR. unfold bind. simpl. rewrite Hrun.
  rewrite (bool_decide_eq_false_2 (Some (Z.of_nat i) = r_index s))
    by congruence.
  simpl. destruct Hres as [-> | ->]; [done|].
  destruct (arr_get rs (Some (Z.of_nat i))) as [r|]; [|done].
  by rewrite differs_same.
Qed.

(** X10. A background tab that changes takes the focus: when no tab of this
    router is addressed, the first inactive navigator tab whose child
    router answers with a new route becomes active and its route is
    replaced.  The dispatch returns [{...state, index, routes}]: [index]
    is the position of that tab, [routes] is a new array, the elements of
    the input array with the new route at that position, and every other
    property is that of the input state.  Both objects are allocated by
    the dispatch, after the child router ran. *)
Theorem background_change_takes_focus st a s rs j tabId R t σ σ1 :
  r_routes s = Some rs →
  j < length (arr_elems rs) →
  a_type (mapDeprecatedActionAndWarn a) ≠ BACK →
  (a_type (mapDeprecatedActionAndWarn a) = NAVIGATE →
   ∀ T, a_routeName (mapDeprecatedActionAndWarn a) = Some T → T ∉ order st) →
  a_key (mapDeprecatedActionAndWarn a) = None
  ∨ is_Some (arr_get rs (r_index s)) →
  tabRouter_of st (key_of (list_get (order st) (r_index s))) = None →
  order st !! j = Some tabId →
  r_index s ≠ Some (Z.of_nat j) →
  tabRouter_of st tabId = Some R →
  (∀ i name, i < j → order st !! i = Some name →
             r_index s ≠ Some (Z.of_nat i) →
             tabRouter_of st name = None
             ∧ is_Some (arr_get rs (Some (Z.of_nat i)))) →
  Router.getStateForAction R (mapDeprecatedActionAndWarn a)
    (arr_get rs (Some (Z.of_nat j))) σ = (Ret (Some t), σ1) →
  differs t (arr_get rs (Some (Z.of_nat j))) = true →
  r_ref s < next_ref σ1 →
  arr_ref rs < next_ref σ1 →
  ∃ s' rs',
    getStateForAction mapDeprecatedActionAndWarn st a (Some s) σ
    = (Ret (Some s'), MkStore (S (S (next_ref σ1))) (objects σ1))
    ∧ s' = MkRoute (S (next_ref σ1)) (r_key s) (r_routeName s) (r_params s)
             (Some (Z.of_nat j)) (Some rs') (r_rest s)
    ∧ rs' = MkArray (next_ref σ1) (<[j := Some t]> (arr_elems rs)) []
    ∧ differs s' (Some s) = true
    ∧ arr_ref rs' ≠ arr_ref rs.
Proof.
  intros Hrs Hlt Hb Hn Hkey Hactive Hj Hne HR Hleaf Hrun Hdiff Hs Hrsref.
  eexists _, _. split_and!.
  - unfold getStateForAction. unfold bind at 1. simpl. unfold routes_of.
    rewrite Hrs. unfold bind at 1, ret at 1. rewrite Hactive.
    rewrite tabChangeStep_not_for_tabs by done.
    unfold otherTabsStep, bind.
    rewrite (otherTabs_first_change st _ (r_index s) rs R tabId t σ1 j
               (order st) 0 σ); try done.
    rewrite bool_decide_eq_true_2 by (simpl; congruence). simpl.
    unfold alloc, ret. simpl. rewrite arr_set_spread by done.
    reflexivity.
  - done.
  - done.
  - unfold differs, with_index_routes. simpl.
    by rewrite bool_decide_eq_false_2 by lia.
  - simpl. lia.
Qed.

End ChildRouters.

(** ** Paths *)

Lemma split_no_sep sep s : has_char sep s = false → split sep s = [s].
Proof.
  induction s as [|c s IH]; [done|]. simpl.
  destruct (Ascii.eqb c sep); [done|]. simpl. intros Hs. by rewrite IH.
Qed.

Lemma split_app_sep sep p rest :
  has_char sep p = false →
  split sep (p ++ String sep rest) = p :: split sep rest.
Proof.
  induction p as [|c p IH]; simpl.
  - intros _. by rewrite Ascii.eqb_refl.
  - destruct (Ascii.eqb c sep); [done|]. simpl. intros Hp. by rewrite IH.
Qed.

Lemma head_split_no_sep sep s p :
  head (split sep s) = Some p → has_char sep p = false.
Proof.
  revert p. induction s as [|c s IH]; intros p; simpl.
  - by intros [= <-].
  - destruct (Ascii.eqb c sep) eqn:Hc; [by intros [= <-]|].
    destruct (split sep s) as [|q qs]; simpl.
    + intros [= <-]. simpl. by rewrite Hc.
    + intros [= <-]. simpl. rewrite Hc. simpl. by apply IH.
Qed.

Lemma split_nonempty sep s : split sep s ≠ [].
Proof.
  destruct s as [|c s]; [done|]. simpl.
  destruct (Ascii.eqb c sep); [done|]. by destruct (split sep s).
Qed.

Lemma concat_split sep s :
  String.concat (String sep EmptyString) (split sep s) = s.
Proof.
  induction s as [|c s IH]; [done|]. simpl.
  pose proof (split_nonempty sep s) as Hne.
  destruct (split sep s) as [|q qs]; [done|].
  destruct (Ascii.eqb c sep) eqn:Hc.
  - apply Ascii.eqb_eq in Hc as ->.
    change (String.concat (String sep "") ("" :: q :: qs))
      with (String sep (String.concat (String sep "") (q :: qs))).
    by rewrite IH.
  - destruct qs as [|q' qs].
    + simpl in *. by rewrite IH.
    + change (String.concat (String sep "") (String c q :: q' :: qs))
        with (String c (String.concat (String sep "") (q :: q' :: qs))).
      by rewrite IH.
Qed.

Lemma find_truthy_map {A B} (P : A → Prop) `{∀ x, Decision (P x)}
    (g : A → B) (l : list A) :
  find_truthy (map (λ x, if bool_decide (P x) then Some (g x) else None) l)
  = (λ p, g p.2) <$> list_find P l.
Proof.
  unfold find_truthy. induction l as [|x l IH]; [done|]. simpl.
  case_bool_decide; simpl.
  - by rewrite decide_True.
  - rewrite decide_False by done.
    revert IH. destruct (list_find is_Some _) as [[i o]|];
      destruct (list_find P l) as [[j y]|]; simpl; try done.
Qed.

Lemma find_truthy_none {A B} (l : list A) :
  find_truthy (map (λ _, @None B) l) = None.
Proof.
  unfold find_truthy. induction l as [|x l IH]; [done|]. simpl.
  revert IH. by destruct (list_find is_Some _) as [[i o]|].
Qed.

(** The decoder's test of a leaf tab. *)
Lemma matchTab_of_leaf st path0 params name σ :
  tabRouter_of st name = None →
  matchTab st path0 params name σ
  = (Ret (if bool_decide (head (split "/" path0) = table σ (paths st) !! name)
          then Some (MkAction NAVIGATE None (Some name) params None)
          else None), σ).
Proof.
  intros Hl. unfold matchTab, bind, read_object, ret. rewrite Hl.
  case_bool_decide; [|done]. by destruct params.
Qed.

(** The first pass of the decoder over leaf tabs. *)
Lemma mapM_matchTab_leaf st path0 params σ tabs :
  Forall (λ name, tabRouter_of st name = None) tabs →
  mapM (matchTab st path0 params) tabs σ
  = (Ret (map (λ name,
                 if bool_decide (head (split "/" path0)
                                 = table σ (paths st) !! name)
                 then Some (MkAction NAVIGATE None (Some name) params None)
                 else None) tabs), σ).
Proof.
  induction tabs as [|name tabs IH]; [done|]. intros Hleaf.
  inversion_clear Hleaf as [|?? Hl Hls]. simpl.
  unfold bind at 1. rewrite (matchTab_of_leaf _ _ _ _ _ Hl).
  unfold bind. by rewrite (IH Hls).
Qed.

(** The second pass of the decoder over leaf tabs. *)
Lemma mapM_askTab_leaf st path0 params σ tabs :
  Forall (λ name, tabRouter_of st name = None) tabs →
  mapM (askTab st path0 params) tabs σ
  = (Ret (map (λ _, None) tabs), σ).
Proof.
  induction tabs as [|name tabs IH]; [done|]. intros Hleaf.
  inversion_clear Hleaf as [|?? Hl Hls]. simpl.
  unfold bind at 1. unfold askTab at 1. rewrite Hl.
  unfold ret at 1, bind. by rewrite (IH Hls).
Qed.

Lemma leaf_only_Forall st :
  leaf_only st = true →
  Forall (λ name, tabRouter_of st name = None) (order st).
Proof.
  intros Hleaf. apply Forall_forall. intros name Hin.
  apply list_elem_of_lookup in Hin as [i Hi]. by eapply leaf_only_lookup.
Qed.

Lemma getActionForPathAndParams_leaf st path0 params σ :
  leaf_only st = true →
  getActionForPathAndParams st path0 params σ
  = (Ret ((λ p, MkAction NAVIGATE None (Some p.2) params None)
          <$> list_find (λ name, head (split "/" path0)
                                 = table σ (paths st) !! name)
                (order st)),
     σ).
Proof.
  intros Hleaf. apply leaf_only_Forall in Hleaf.
  unfold getActionForPathAndParams, bind.
  rewrite (mapM_matchTab_leaf _ _ _ _ _ Hleaf).
  rewrite (find_truthy_map
             (λ name, head (split "/" path0) = table σ (paths st) !! name)
             (λ name, MkAction NAVIGATE None (Some name) params None)).
  destruct (list_find _ (order st)) as [[i name]|]; simpl; [done|].
  rewrite (mapM_askTab_leaf _ _ _ _ _ Hleaf).
  unfold ret. by rewrite find_truthy_none.
Qed.

(** X11. With leaf tabs only the decoder looks at the first path component
    alone: it answers with a NAVIGATE to the first tab in [order] whose
    path segment is that component, carrying the params it was given, and
    with [null] when no tab has that segment; the store is not touched. *)
Theorem decode_over_leaf_tabs st path0 params σ :
  leaf_only st = true →
  ∃ res,
    getActionForPathAndParams st path0 params σ = (Ret res, σ)
    ∧ match res with
      | Some act =>
          ∃ i name,
            act = MkAction NAVIGATE None (Some name) params None
            ∧ order st !! i = Some name
            ∧ table σ (paths st) !! name = head (split "/" path0)
            ∧ ∀ j n, j < i → order st !! j = Some n →
                     table σ (paths st) !! n ≠ head (split "/" path0)
      | None =>
          ∀ name, name ∈ order st →
                  table σ (paths st) !! name ≠ head (split "/" path0)
      end.
Proof.
  intros Hleaf. eexists. split; [by apply getActionForPathAndParams_leaf|].
  destruct (list_find _ (order st)) as [[i name]|] eqn:Hfind; simpl.
  - apply list_find_Some in Hfind as (Hi & Hname & Hfirst).
    exists i, name. split_and!; [done | done | done |].
    intros j n Hj Hn Heq. by apply (Hfirst j n Hn Hj).
  - apply list_find_None in Hfind. intros name Hin Heq.
    by apply (proj1 (Forall_forall _ _) Hfind name Hin).
Qed.

(** X12. Encoding a state and decoding the result names the active tab again,
    with the params of its route, provided the tab's path segment has no
    slash and no earlier tab shares it. *)
Theorem leaf_path_round_trip st s rs k name routeConfig r seg σ :
  leaf_only st = true →
  r_routes s = Some rs → r_index s = Some (Z.of_nat k) →
  order st !! k = Some name →
  arr_get rs (Some (Z.of_nat k)) = Some r →
  assoc name (routeConfigs st) = Some routeConfig →
  screen routeConfig = Some (MkScreen None) →
  table σ (paths st) !! name = Some seg →
  has_char "/" seg = false →
  (∀ j n, j < k → order st !! j = Some n →
          table σ (paths st) !! n ≠ Some seg) →
  ∃ pp,
    getPathAndParamsForState st s σ = (Ret pp, σ)
    ∧ getActionForPathAndParams st (key_of (pp_path pp)) (pp_params pp) σ
      = (Ret (Some (MkAction NAVIGATE None (Some name) (r_params r) None)),
         σ).
Proof.
  intros Hleaf Hrs Hk Hname Hr Hcfg Hscreen Hseg Hslash Hfirst.
  eexists. split.
  { by eapply getPathAndParamsForState_leaf. }
  simpl. rewrite getActionForPathAndParams_leaf by done.
  rewrite split_no_sep by done. simpl.
  assert (Hfind : list_find
                    (λ n, Some seg = table σ (paths st) !! n) (order st)
                  = Some (k, name)).
  { apply list_find_Some. split_and!; [done | done |].
    intros j n Hj Hlt Heq. by apply (Hfirst j n). }
  by rewrite Hfind.
Qed.

(** X13. A tab whose path segment contains a slash is never the answer of the
    decoder: only the first path component is compared. *)
Theorem slash_segment_is_never_decoded st path0 params name seg act σ σ' :
  leaf_only st = true →
  table σ (paths st) !! name = Some seg →
  has_char "/" seg = true →
  getActionForPathAndParams st path0 params σ = (Ret (Some act), σ') →
  a_routeName act ≠ Some name.
Proof.
  intros Hleaf Hseg Hslash Hrun. rewrite getActionForPathAndParams_leaf in Hrun by done.
  destruct (list_find _ (order st)) as [[i n]|] eqn:Hfind; [|done].
  simpl in Hrun. injection Hrun as <- <-. simpl. intros [= ->].
  apply list_find_Some in Hfind as (_ & Hhead & _).
  rewrite Hseg in Hhead. apply head_split_no_sep in Hhead. congruence.
Qed.

(** ** Navigator tabs in the path codec *)

Lemma matchTab_no_match st path0 params name σ :
  head (split "/" path0) ≠ table σ (paths st) !! name →
  matchTab st path0 params name σ = (Ret None, σ).
Proof.
  intros Hne. unfold matchTab, bind, read_object, ret.
  by rewrite bool_decide_eq_false_2.
Qed.

Lemma mapM_matchTab_no_match st path0 params σ tabs :
  Forall (λ name, head (split "/" path0) ≠ table σ (paths st) !! name) tabs →
  mapM (matchTab st path0 params) tabs σ = (Ret (map (λ _, None) tabs), σ).
Proof.
  induction tabs as [|name tabs IH]; [done|]. intros Hno.
  inversion_clear Hno as [|?? Hn Hns]. simpl.
  unfold bind at 1. rewrite (matchTab_no_match _ _ _ _ _ Hn).
  unfold bind. by rewrite (IH Hns).
Qed.

Lemma find_truthy_cons_Some {A} (a : A) l : find_truthy (Some a :: l) = Some a.
Proof. done. Qed.

Lemma find_truthy_cons_None {A} (l : list (option A)) :
  find_truthy (None :: l) = find_truthy l.
Proof.
  unfold find_truthy. simpl. by destruct (list_find is_Some l) as [[i o]|].
Qed.

(** The first pass of the decoder when a single tab matches. *)
Lemma mapM_matchTab_one st path0 params name act σ σ1 : ∀ tabs d,
  tabs !! d = Some name →
  (∀ j n, j ≠ d → tabs !! j = Some n →
          head (split "/" path0) ≠ table σ (paths st) !! n) →
  matchTab st path0 params name σ = (Ret (Some act), σ1) →
  table σ1 (paths st) = table σ (paths st) →
  ∃ results,
    mapM (matchTab st path0 params) tabs σ = (Ret results, σ1)
    ∧ find_truthy results = Some act.
Proof.
  induction tabs as [|n tabs IH]; intros d Hd Hno Hrun Htable; [done|].
  destruct d as [|d]; simpl in Hd.
  - simplify_eq. simpl. unfold bind at 1. rewrite Hrun.
    unfold bind. rewrite mapM_matchTab_no_match.
    + eexists. split; [done|]. apply find_truthy_cons_Some.
    + apply Forall_forall. intros m Hm.
      apply list_elem_of_lookup in Hm as [j Hj]. rewrite Htable.
      by apply (Hno (S j) m).
  - destruct (IH d Hd) as (results & Hres & Hfind); [| done | done |].
    { intros j m Hj Hm. apply (Hno (S j) m); [lia | done]. }
    simpl. unfold bind at 1.
    rewrite (matchTab_no_match _ _ _ n); [|by apply (Hno 0 n)].
    unfold bind. rewrite Hres. eexists. split; [done|].
    by rewrite find_truthy_cons_None.
Qed.

(** X14. On a path [seg/rest] the decoder hands [rest] to the child router of
    the tab whose path segment is [seg], and wraps the answer, [null]
    included, in a NAVIGATE to that tab. *)
Theorem decode_hands_rest_to_child st k name R decode seg rest params child
    σ σ1 :
  order st !! k = Some name →
  (∀ j n, j ≠ k → order st !! j = Some n →
          table σ (paths st) !! n ≠ Some seg) →
  table σ (paths st) !! name = Some seg →
  has_char "/" seg = false →
  tabRouter_of st name = Some R →
  Router.getActionForPathAndParams R = Some decode →
  decode rest params σ = (Ret child, σ1) →
  table σ1 (paths st) = table σ (paths st) →
  getActionForPathAndParams st (seg ++ "/" ++ rest) params σ
  = (Ret (Some (MkAction NAVIGATE None (Some name) None child)), σ1).
Proof.
  intros Hk Hothers Hseg Hslash HR Hdec Hrun Htable.
  assert (Hparts : split "/" (seg ++ "/" ++ rest) = seg :: split "/" rest).
  { by apply split_app_sep. }
  assert (Hmatch : matchTab st (seg ++ "/" ++ rest) params name σ
                   = (Ret (Some (MkAction NAVIGATE None (Some name) None
                                   child)), σ1)).
  { unfold matchTab. rewrite Hparts. unfold bind at 1, read_object.
    rewrite Hseg. simpl. rewrite bool_decide_eq_true_2 by done.
    rewrite HR, Hdec. unfold bind. by rewrite concat_split, Hrun. }
  destruct (mapM_matchTab_one st (seg ++ "/" ++ rest) params name
              (MkAction NAVIGATE None (Some name) None child) σ σ1
              (order st) k Hk) as (results & Hres & Hfind); try done.
  { intros j n Hj Hn. rewrite Hparts. simpl. intros Heq.
    by apply (Hothers j n). }
  unfold getActionForPathAndParams, bind. by rewrite Hres, Hfind.
Qed.

(** X15. The encoder on a navigator tab: the child's path follows the tab's
    segment, and of the params the child's win. *)
Theorem encode_navigator_tab st s rs k name routeConfig R r seg child σ σ1 :
  r_routes s = Some rs → r_index s = Some (Z.of_nat k) →
  order st !! k = Some name →
  arr_get rs (Some (Z.of_nat k)) = Some r →
  assoc name (routeConfigs st) = Some routeConfig →
  screen routeConfig = Some (MkScreen (Some R)) →
  table σ (paths st) !! name = Some seg →
  Router.getPathAndParamsForState R r σ = (Ret child, σ1) →
  ∃ pp,
    getPathAndParamsForState st s σ = (Ret pp, σ1)
    ∧ pp_path pp = (if bool_decide (seg = "") then pp_path child
                    else Some (seg ++ "/" ++ key_of (pp_path child)))
    ∧ match pp_params child with
      | Some cp =>
          ∃ m, pp_params pp = Some m
               ∧ ∀ key, m !! key = match cp !! key with
                                   | Some v => Some v
                                   | None => default ∅ (r_params r) !! key
                                   end
      | None => pp_params pp = r_params r
      end.
Proof.
  intros Hrs Hk Hname Hr Hcfg Hscreen Hseg Hrun.
  eexists. split_and!.
  - unfold getPathAndParamsForState, routes_of. rewrite Hrs.
    unfold bind, ret at 1, read_object. rewrite Hk, list_get_nat, Hname, Hr.
    unfold getScreenForRouteName. simpl. rewrite Hcfg, Hscreen, Hseg. simpl.
    rewrite Hrun. reflexivity.
  - done.
  - simpl. destruct (pp_params child) as [cp|]; [|done].
    eexists. split; [done|]. intros key.
    unfold Params in *. destruct (cp !! key) as [v|] eqn:Hcp.
    + by apply lookup_union_Some_l.
    + by apply lookup_union_r.
Qed.

(** ** The component resolvers *)

Section Components.

Variable childComponentForState : Router.t -> option Route -> M Screen.

(** X16. The component of a state whose active tab is a leaf tab is the screen
    the tab was configured with, the one [getComponentForRouteName]
    returns for its name; [routes] is not looked at. *)
Theorem component_of_leaf_tab st s k name routeConfig scr σ :
  r_index s = Some (Z.of_nat k) →
  order st !! k = Some name →
  name ≠ "" →
  tabRouter_of st name = None →
  assoc name (routeConfigs st) = Some routeConfig →
  screen routeConfig = Some scr →
  getComponentForState childComponentForState st s σ = (Ret scr, σ)
  ∧ getComponentForRouteName st (Some name) σ = (Ret scr, σ).
Proof.
  intros Hk Hname Hne Hleaf Hcfg Hscr.
  unfold getComponentForState, getComponentForRouteName.
  rewrite Hk, list_get_nat, Hname. simpl.
  rewrite bool_decide_eq_false_2 by done. rewrite Hleaf.
  unfold getScreenForRouteName. simpl. by rewrite Hcfg, Hscr.
Qed.

(** X17. An index that points at no tab is fatal for [getComponentForState],
    before any child router is asked. *)
Theorem component_of_unknown_index_is_fatal st s σ :
  (∀ k name, r_index s = Some (Z.of_nat k) → order st !! k = Some name →
             name = "") →
  getComponentForState childComponentForState st s σ
  = (Throw InvariantViolation, σ).
Proof.
  intros Hno. unfold getComponentForState.
  destruct (list_get (order st) (r_index s)) as [name|] eqn:Hget; [|done].
  destruct (list_get_is_Some (order st) (r_index s)) as (k & Hk & _);
    [by rewrite Hget|].
  rewrite Hk, list_get_nat in Hget. rewrite (Hno k name Hk Hget). done.
Qed.

End Components.

(** ** Construction *)

Lemma registerTabs_total inherits rc p tabs :
  (∀ n, n ∈ tabs → is_Some (routeConfig_of inherits rc n)) →
  ∀ acc σ, ∃ tr σ',
    registerTabs inherits rc p tabs acc σ = (Ret tr, σ').
Proof.
  induction tabs as [|name tabs IH]; intros Hall acc σ; simpl;
    [by eexists _, _|].
  destruct (Hall name) as [c Hc]; [left|]. rewrite Hc. unfold bind.
  destruct (write_property_spec p name (segment name c) σ) as (σm & -> & _).
  apply IH. intros n Hn. apply Hall. by right.
Qed.

Lemma registerTabs_missing inherits rc p tabs n :
  n ∈ tabs → routeConfig_of inherits rc n = None →
  ∀ acc σ, ∃ σ',
    registerTabs inherits rc p tabs acc σ = (Throw TypeError, σ').
Proof.
  induction tabs as [|name tabs IH]; intros Hin Hnone acc σ;
    [by apply elem_of_nil in Hin|]. simpl.
  destruct (routeConfig_of inherits rc name) as [c|] eqn:Hc; [|by eexists].
  unfold bind.
  destruct (write_property_spec p name (segment name c) σ) as (σm & -> & _).
  apply elem_of_cons in Hin as [->|Hin]; [congruence|]. by apply IH.
Qed.

Lemma indexOf_absent_iff l name :
  indexOf l name = (-1)%Z ↔ ∀ n, name = Some n → n ∉ l.
Proof.
  unfold indexOf. destruct (list_find _ l) as [[i x]|] eqn:Hfind.
  - apply list_find_Some in Hfind as (Hi & <- & _). split; [lia|].
    intros Hno. exfalso. apply (Hno x eq_refl).
    by eapply list_elem_of_lookup_2.
  - split; [|done]. intros _ n -> Hin.
    apply list_find_None in Hfind.
    by apply (proj1 (Forall_forall _ _) Hfind n Hin).
Qed.

Section Construction.

Variable mapDeprecatedActionAndWarn : Action -> Action.
Variable validateRouteConfigMap : RouteConfigMap -> M unit.
Variable inherits : string -> bool.

(** X18. Once the route configurations are accepted, the factory returns a
    router exactly when [routeConfigs[name]] is defined for every name in
    [order], as an own property or as a property the route configurations
    inherit, and the initial route name, [config.initialRouteName] or else
    the first tab, is one of the tabs. *)
Theorem factory_succeeds_iff rc config σ0 σa :
  validateRouteConfigMap rc σ0 = (Ret tt, σa) →
  let order := default (fst <$> rc) (cfg_order config) in
  (∃ R σ1,
      TabRouter mapDeprecatedActionAndWarn validateRouteConfigMap inherits rc
        config σ0
      = (Ret R, σ1))
  ↔ (∀ n, n ∈ order → is_Some (routeConfig_of inherits rc n))
    ∧ match truthy (cfg_initialRouteName config) with
      | Some n => n ∈ order
      | None => order ≠ []
      end.
Proof.
  intros Hval order0.
  set (initial := match truthy (cfg_initialRouteName config) with
                  | Some n => Some n
                  | None => head order0
                  end).
  assert (Hinit : indexOf order0 initial ≠ (-1)%Z
                  ↔ match truthy (cfg_initialRouteName config) with
                    | Some n => n ∈ order0
                    | None => order0 ≠ []
                    end).
  { rewrite indexOf_absent_iff. unfold initial.
    destruct (truthy (cfg_initialRouteName config)) as [n|].
    - split; [|by intros Hin Hno; apply (Hno n)].
      intros Hno. destruct (decide (n ∈ order0)); [done|].
      exfalso. apply Hno. by intros ? [= <-].
    - destruct order0 as [|x l]; simpl.
      + split; [|done]. intros Hno. exfalso. by apply Hno.
      + split; [done|]. intros _ Hno. apply (Hno x eq_refl). left. }
  unfold TabRouter, settings_of, bind. rewrite Hval. fold order0. fold initial.
  destruct (match cfg_paths config with
            | Some p => ret p
            | None => new_object
            end σa) as [[p|e] σb] eqn:Hp.
  2: { destruct (cfg_paths config); discriminate. }
  split.
  - intros (R & σ1 & Hrun).
    destruct (registerTabs inherits rc p order0 ∅ σb) as [[tr|e] σc] eqn:Hreg;
      [|done].
    case_bool_decide as Hidx; [done|]. split; [|by apply Hinit].
    intros n Hn. destruct (routeConfig_of inherits rc n) eqn:Hc; [eauto|].
    destruct (registerTabs_missing inherits rc p order0 n Hn Hc ∅ σb)
      as [σ' Hthrow].
    congruence.
  - intros [Hall Hin].
    destruct (registerTabs_total inherits rc p order0 Hall ∅ σb)
      as (tr & σc & ->).
    rewrite bool_decide_eq_false_2 by by apply Hinit.
    unfold ret. eauto.
Qed.

(** X19. A name in [order] under which the route configurations hold
    nothing, neither an own property nor an inherited one, makes the
    factory throw a [TypeError], whatever the initial route name. *)
Theorem factory_needs_every_tab_configured rc config σ0 σa n :
  validateRouteConfigMap rc σ0 = (Ret tt, σa) →
  n ∈ default (fst <$> rc) (cfg_order config) →
  routeConfig_of inherits rc n = None →
  ∃ σ',
    TabRouter mapDeprecatedActionAndWarn validateRouteConfigMap inherits rc
      config σ0
    = (Throw TypeError, σ').
Proof.
  intros Hval Hn Hnone. unfold TabRouter, settings_of, bind. rewrite Hval.
  destruct (match cfg_paths config with
            | Some p => ret p
            | None => new_object
            end σa) as [[p|e] σb] eqn:Hp.
  2: { destruct (cfg_paths config); discriminate. }
  destruct (registerTabs_missing inherits rc p _ n Hn Hnone ∅ σb)
    as [σ' ->].
  by eexists.
Qed.

(** X20. With every tab configured, an initial route name that is no tab is
    an invariant violation. *)
Theorem factory_rejects_unknown_initial_route rc config σ0 σa name :
  validateRouteConfigMap rc σ0 = (Ret tt, σa) →
  (∀ n, n ∈ default (fst <$> rc) (cfg_order config) → is_Some (assoc n rc)) →
  truthy (cfg_initialRouteName config) = Some name →
  name ∉ default (fst <$> rc) (cfg_order config) →
  ∃ σ',
    TabRouter mapDeprecatedActionAndWarn validateRouteConfigMap inherits rc
      config σ0
    = (Throw InvariantViolation, σ').
Proof.
  intros Hval Hall Hname Hnot. unfold TabRouter, settings_of, bind.
  rewrite Hval, Hname.
  destruct (match cfg_paths config with
            | Some p => ret p
            | None => new_object
            end σa) as [[p|e] σb] eqn:Hp.
  2: { destruct (cfg_paths config); discriminate. }
  assert (Hread : ∀ n, n ∈ default (fst <$> rc) (cfg_order config) →
                        is_Some (routeConfig_of inherits rc n)).
  { intros n Hn. destruct (Hall n Hn) as [c Hc].
    rewrite (routeConfig_of_own _ _ _ _ Hc). eauto. }
  destruct (registerTabs_total inherits rc p _ Hread ∅ σb)
    as (tr & σc & ->).
  rewrite bool_decide_eq_true_2; [by eexists|].
  apply indexOf_absent_iff. by intros ? [= <-].
Qed.

(** X21. The settings a successful construction closes over: the initial tab
    is the first occurrence of the initial route name, which defaults to
    the first tab; the back behaviour defaults to "initialRoute"; and a
    tab is a navigator tab exactly when the screen of
    [routeConfigs[name]] exposes a router. *)
Theorem factory_settings rc config σ0 st σ1 :
  settings_of validateRouteConfigMap inherits rc config σ0 = (Ret st, σ1) →
  (∃ k name,
      initialRouteIndex st = Z.of_nat k
      ∧ initialRouteName st = Some name
      ∧ position_of st name k
      ∧ match truthy (cfg_initialRouteName config) with
        | Some n => name = n
        | None => k = 0
        end)
  ∧ (shouldBackNavigateToInitialRoute st = true
     ↔ truthy (cfg_backBehavior config) = None
       ∨ cfg_backBehavior config = Some "initialRoute")
  ∧ (∀ name, name ∈ order st →
       ∃ routeConfig, routeConfig_of inherits rc name = Some routeConfig
         ∧ tabRouter_of st name = screen routeConfig ≫= router).
Proof.
  intros Hrun.
  destruct (settings_of_inv _ _ _ _ _ _ _ Hrun)
    as (σa & σb & Hval & Hp & Hreg & Hrc & Hord & Hwf).
  pose proof (registerTabs_spec _ _ _ _ _ _ _ _ Hreg)
    as (_ & _ & _ & Hin & _ & _).
  unfold settings_of, bind in Hrun. rewrite Hval in Hrun.
  destruct (match cfg_paths config with
            | Some p => ret p
            | None => new_object
            end σa) as [[p|e] σp]; [|done].
  destruct (registerTabs _ _ _ _ _ σp) as [[tr|e] σc]; [|done].
  case_bool_decide as Hidx; [done|]. unfold ret in Hrun.
  injection Hrun as <- <-. simpl in *. clear Hord Hrc.
  split_and!.
  - unfold indexOf in *.
    destruct (list_find _ _) as [[k name]|] eqn:Hfind; [|done].
    apply list_find_Some in Hfind as (Hk & Hname & Hfirst).
    exists k, name. split_and!; [done | done | |].
    + split; [done|]. intros j Hj Hjn. by apply (Hfirst j name Hjn Hj).
    + destruct (truthy (cfg_initialRouteName config)) as [n|]; [congruence|].
      destruct (default (fst <$> rc) (cfg_order config)) as [|x l]; [done|].
      simpl in *. destruct k as [|k]; [done|].
      exfalso. apply (Hfirst 0 x eq_refl); [lia | done].
  - rewrite bool_decide_eq_true. unfold truthy.
    destruct (cfg_backBehavior config) as [b|]; simpl;
      [|split; [by left | done]].
    destruct (bool_decide (b = "")); simpl; [split; [by left | done]|].
    split; [intros ->; by right | by intros [[=]|[= ->]]].
  - intros name Hname. destruct (Hin name Hname) as (c & Hc & _ & Htr).
    exists c. split; [done|]. unfold tabRouter_of. simpl. by rewrite Htr.
Qed.

End Construction.

(** ** The second pass of the decoder *)

Lemma find_truthy_head_none {A B} (res : option B) (l : list A) :
  find_truthy (res :: map (λ _, None) l) = res.
Proof.
  destruct res as [b|]; [done|].
  by rewrite find_truthy_cons_None, find_truthy_none.
Qed.

(** The second pass when a single tab owns a router. *)
Lemma mapM_askTab_one st path0 params name R decode res σ σ1 : ∀ tabs d,
  tabs !! d = Some name →
  (∀ j n, j ≠ d → tabs !! j = Some n → tabRouter_of st n = None) →
  tabRouter_of st name = Some R →
  Router.getActionForPathAndParams R = Some decode →
  decode path0 params σ = (Ret res, σ1) →
  ∃ results,
    mapM (askTab st path0 params) tabs σ = (Ret results, σ1)
    ∧ find_truthy results = res.
Proof.
  induction tabs as [|n tabs IH]; intros d Hd Hleaf HR Hdec Hrun; [done|].
  destruct d as [|d]; simpl in Hd.
  - simplify_eq. simpl. unfold bind at 1. unfold askTab at 1.
    rewrite HR, Hdec, Hrun. unfold bind. rewrite mapM_askTab_leaf.
    + eexists. split; [done|]. apply find_truthy_head_none.
    + apply Forall_forall. intros m Hm.
      apply list_elem_of_lookup in Hm as [j Hj]. by apply (Hleaf (S j) m).
  - destruct (IH d Hd) as (results & Hres & Hfind); [| done | done | done |].
    { intros j m Hj Hm. apply (Hleaf (S j) m); [lia | done]. }
    simpl. unfold bind at 1. unfold askTab at 1.
    rewrite (Hleaf 0 n) by done. unfold ret at 1, bind. rewrite Hres.
    eexists. split; [done|]. by rewrite find_truthy_cons_None.
Qed.

(** The second pass stops at the first router without a decoder. *)
Lemma mapM_askTab_throw st path0 params name R σ : ∀ tabs d,
  tabs !! d = Some name →
  (∀ j n, j < d → tabs !! j = Some n → tabRouter_of st n = None) →
  tabRouter_of st name = Some R →
  Router.getActionForPathAndParams R = None →
  mapM (askTab st path0 params) tabs σ = (Throw TypeError, σ).
Proof.
  induction tabs as [|n tabs IH]; intros d Hd Hleaf HR Hdec; [done|].
  destruct d as [|d]; simpl in Hd.
  - simplify_eq. simpl. unfold bind at 1. unfold askTab at 1.
    by rewrite HR, Hdec.
  - simpl. unfold bind at 1. unfold askTab at 1.
    rewrite (Hleaf 0 n) by (done || lia). unfold ret at 1, bind.
    rewrite (IH d); [done | done | | done | done].
    intros j m Hj Hm. apply (Hleaf (S j) m); [lia | done].
Qed.

Lemma no_segment_Forall st path0 σ :
  (∀ n, n ∈ order st → table σ (paths st) !! n ≠ head (split "/" path0)) →
  Forall (λ name, head (split "/" path0) ≠ table σ (paths st) !! name)
    (order st).
Proof.
  intros Hno. apply Forall_forall. intros n Hn Heq. by apply (Hno n Hn).
Qed.

(** X22. When no tab has the first path component as its segment, the decoder
    asks the child routers with the whole path; with one navigator tab
    the answer of its router is returned as it is, not wrapped in a
    NAVIGATE to the tab. *)
Theorem decode_falls_back_to_child_router st path0 params k name R decode res
    σ σ1 :
  (∀ n, n ∈ order st → table σ (paths st) !! n ≠ head (split "/" path0)) →
  order st !! k = Some name →
  (∀ j n, j ≠ k → order st !! j = Some n → tabRouter_of st n = None) →
  tabRouter_of st name = Some R →
  Router.getActionForPathAndParams R = Some decode →
  decode path0 params σ = (Ret res, σ1) →
  getActionForPathAndParams st path0 params σ = (Ret res, σ1).
Proof.
  intros Hno Hk Hleaf HR Hdec Hrun.
  unfold getActionForPathAndParams, bind.
  rewrite mapM_matchTab_no_match by by apply no_segment_Forall.
  rewrite find_truthy_none.
  destruct (mapM_askTab_one st path0 params name R decode res σ σ1
              (order st) k Hk Hleaf HR Hdec Hrun) as (results & -> & Hfind).
  unfold ret. by rewrite Hfind.
Qed.

(** X23. The second pass calls [getActionForPathAndParams] of every child
    router without testing that it exists: a path that matches no segment
    is a [TypeError] when a navigator tab's router has no decoder. *)
Theorem decode_needs_child_decoders st path0 params k name R σ :
  (∀ n, n ∈ order st → table σ (paths st) !! n ≠ head (split "/" path0)) →
  order st !! k = Some name →
  (∀ j n, j < k → order st !! j = Some n → tabRouter_of st n = None) →
  tabRouter_of st name = Some R →
  Router.getActionForPathAndParams R = None →
  getActionForPathAndParams st path0 params σ = (Throw TypeError, σ).
Proof.
  intros Hno Hk Hleaf HR Hdec.
  unfold getActionForPathAndParams, bind.
  rewrite mapM_matchTab_no_match by by apply no_segment_Forall.
  rewrite find_truthy_none.
  by rewrite (mapM_askTab_throw st path0 params name R σ (order st) k).
Qed.

(** ** States that break the invariant *)

Section BrokenStates.

Variable mapDeprecatedActionAndWarn : Action -> Action.

(** X24. A state that breaks the invariant can crash the dispatch with a
    [TypeError] and the store untouched: a state without [routes] on any
    action, and a state with no route at [index] (and no router for the
    tab there) on any action that carries a key, whose comparison reads
    the [key] of the missing route. *)
Theorem broken_state_is_a_type_error st a s σ :
  r_routes s = None
  ∨ (∃ rs key,
        r_routes s = Some rs
        ∧ arr_get rs (r_index s) = None
        ∧ tabRouter_of st (key_of (list_get (order st) (r_index s))) = None
        ∧ a_key (mapDeprecatedActionAndWarn a) = Some key) →
  getStateForAction mapDeprecatedActionAndWarn st a (Some s) σ
  = (Throw TypeError, σ).
Proof.
  intros [Hr | (rs & key & Hr & Hget & Hleaf & Hkey)];
    unfold getStateForAction, bind, routes_of, ret; rewrite Hr; [done|].
  rewrite Hleaf. unfold tabChangeStep, bind. by rewrite Hkey, Hget.
Qed.

End BrokenStates.

(** ** Instances of the further properties *)

(** X1, witness: the nested router of [Mail] takes the action and the
    state with the replaced route still has a route per tab. *)
Lemma dispatch_keeps_state_invariant_witness :
  state_ok mailSettings
    (with_routes 12 mailState
       (MkArray 11
          [Some (with_index 10 mailRoute (Some 1%Z));
           Some (tab_route 7 None "Profile")]
          []))
  = true.
Proof.
  apply (dispatch_keeps_state_invariant mapCanonical mailSettings
           (NavigationActions_navigate "Profile") (Some mailState)
           (MkStore 10 ∅) _ (MkStore 13 ∅)).
  - split_and!; [reflexivity | discriminate | reflexivity].
  - intros s [= <-]. reflexivity.
  - reflexivity.
Defined.

(** X2, witness: NAVIGATE to the active tab [Home]. *)
Lemma leaf_dispatch_outcomes_witness :
  ∃ res σ',
    getStateForAction mapCanonical homeSettings
      (NavigationActions_navigate "Home") (Some (homeState 0)) (MkStore 5 ∅)
    = (Ret res, σ')
    ∧ match res with
      | Some s' =>
          r_routes s' = r_routes (homeState 0)
          ∧ (s' = homeState 0 ∧ σ' = MkStore 5 ∅
             ∨ r_index s' ≠ r_index (homeState 0)
               ∧ is_Some (list_get (order homeSettings) (r_index s')))
      | None =>
          σ' = MkStore 5 ∅
          ∧ a_type (NavigationActions_navigate "Home") = NAVIGATE
          ∧ ∃ T i, a_routeName (NavigationActions_navigate "Home") = Some T
                   ∧ T ≠ "" ∧ position_of homeSettings T i
                   ∧ r_index (homeState 0) = Some (Z.of_nat i)
      end.
Proof.
  apply (leaf_dispatch_outcomes mapCanonical homeSettings
           (NavigationActions_navigate "Home") (homeState 0) (MkStore 5 ∅)).
  - split_and!; [reflexivity | discriminate | reflexivity].
  - reflexivity.
  - reflexivity.
Defined.

(** X3, witness: [backBehavior: "none"]. *)
Lemma back_is_idle_witness :
  getStateForAction mapCanonical staySettings (backAction None)
    (Some (homeState 1)) (MkStore 5 ∅)
  = (Ret (Some (homeState 1)), MkStore 5 ∅).
Proof.
  apply (back_is_idle mapCanonical staySettings (backAction None)
           (homeState 1) (MkStore 5 ∅));
    [reflexivity | reflexivity | reflexivity | left; reflexivity].
Defined.

(** X4, witness. *)
Lemma navigate_to_unknown_route_returns_state_witness :
  getStateForAction mapCanonical homeSettings
    (NavigationActions_navigate "Profile") (Some (homeState 0)) (MkStore 5 ∅)
  = (Ret (Some (homeState 0)), MkStore 5 ∅).
Proof.
  apply (navigate_to_unknown_route_returns_state mapCanonical homeSettings
           (NavigationActions_navigate "Profile") (homeState 0)
           (MkStore 5 ∅));
    [reflexivity | reflexivity | reflexivity |].
  intros T [= <-] Hin.
  repeat (apply elem_of_cons in Hin as [Hin | Hin]; [discriminate|]).
  by apply elem_of_nil in Hin.
Defined.

(** X5, witness: from [Feed] to [Settings], and back to [Home]. *)
Lemma back_after_switch_goes_to_initial_tab_witness :
  ∃ s1 σ1 s2 σ2,
    getStateForAction mapCanonical deskSettings
      (NavigationActions_navigate "Settings") (Some (deskState 1))
      (MkStore 6 ∅)
    = (Ret (Some s1), σ1)
    ∧ r_index s1 = Some (Z.of_nat 2)
    ∧ getStateForAction mapCanonical deskSettings (backAction None) (Some s1)
        σ1
      = (Ret (Some s2), σ2)
    ∧ r_index s2 = Some (initialRouteIndex deskSettings)
    ∧ r_index s2 ≠ r_index (deskState 1)
    ∧ r_routes s2 = r_routes (deskState 1).
Proof.
  apply (back_after_switch_goes_to_initial_tab mapCanonical deskSettings
           (NavigationActions_navigate "Settings") (backAction None)
           (deskState 1) "Settings" 2 None (MkStore 6 ∅)).
  - split_and!; [reflexivity | discriminate | reflexivity].
  - reflexivity.
  - reflexivity.
  - reflexivity.
  - reflexivity.
  - split; [reflexivity|]. intros j Hj.
    destruct j as [|[|j]]; [discriminate | discriminate | lia].
  - discriminate.
  - discriminate.
  - discriminate.
  - reflexivity.
  - reflexivity.
Defined.

(** X6, witness. *)
Lemma navigate_without_state_opens_tab_witness :
  ∃ s rs σ',
    getStateForAction mapCanonical homeSettings
      (NavigationActions_navigate "Settings") None (MkStore 5 ∅)
    = (Ret (Some s), σ')
    ∧ r_index s = Some (Z.of_nat 1)
    ∧ r_routes s = Some rs
    ∧ length (arr_elems rs) = length (order homeSettings)
    ∧ ∀ j name, order homeSettings !! j = Some name →
        ∃ r, arr_get rs (Some (Z.of_nat j)) = Some r
             ∧ r_routeName r = Some name ∧ r_key r = Some name.
Proof.
  apply (navigate_without_state_opens_tab mapCanonical homeSettings
           (NavigationActions_navigate "Settings") "Settings" 1 None
           (MkStore 5 ∅)).
  - split_and!; [reflexivity | discriminate | reflexivity].
  - reflexivity.
  - reflexivity.
  - split; [reflexivity|]. intros j Hj.
    destruct j as [|j]; [discriminate | lia].
Defined.

(** X7, witness: the nested router of the active tab [Mail] moves to its
    own tab [Profile]. *)
Lemma active_child_route_is_stored_witness :
  ∃ s' rs',
    getStateForAction mapCanonical mailSettings
      (NavigationActions_navigate "Profile") (Some mailState) (MkStore 10 ∅)
    = (Ret (Some s'), MkStore 13 ∅)
    ∧ s' = MkRoute 12 None None None (Some 0%Z) (Some rs') []
    ∧ rs' = MkArray 11
              [Some (with_index 10 mailRoute (Some 1%Z));
               Some (tab_route 7 None "Profile")]
              []
    ∧ differs s' (Some mailState) = true
    ∧ arr_ref rs' ≠ arr_ref mailRoutes.
Proof.
  refine (active_child_route_is_stored mapCanonical mailSettings
            (NavigationActions_navigate "Profile") mailState mailRoutes 0
            inboxRouter (with_index 10 mailRoute (Some 1%Z)) (MkStore 10 ∅)
            (MkStore 11 ∅) _ _ _ _ _ _ _ _).
  - reflexivity.
  - reflexivity.
  - simpl. lia.
  - reflexivity.
  - reflexivity.
  - reflexivity.
  - simpl. lia.
  - simpl. lia.
Defined.

(** X8, witness: from the outer tab [Profile], NAVIGATE to [Mail] with a
    nested NAVIGATE to the tab [Profile] of its router. *)
Lemma navigate_with_action_updates_target_witness :
  ∃ s' rs',
    getStateForAction mapCanonical mailSettings
      (navigateWith "Mail" (NavigationActions_navigate "Profile"))
      (Some mailStateOnProfile) (MkStore 13 ∅)
    = (Ret (Some s'), MkStore 16 ∅)
    ∧ s' = MkRoute 15 None None None (Some 0%Z) (Some rs') []
    ∧ rs' = MkArray 14
              [Some (with_index 13 mailRoute (Some 1%Z));
               Some (tab_route 7 None "Profile")]
              []
    ∧ differs s' (Some mailStateOnProfile) = true
    ∧ arr_ref rs' ≠ arr_ref mailRoutes.
Proof.
  refine (navigate_with_action_updates_target mapCanonical mailSettings
            (navigateWith "Mail" (NavigationActions_navigate "Profile"))
            mailStateOnProfile mailRoutes "Mail" 0 inboxRouter
            (NavigationActions_navigate "Profile") None
            (with_index 13 mailRoute (Some 1%Z)) (MkStore 13 ∅)
            (MkStore 14 ∅) _ _ _ _ _ _ _ _ _ _ _).
  - reflexivity.
  - simpl. lia.
  - reflexivity.
  - discriminate.
  - split; [reflexivity|]. intros j Hj. lia.
  - reflexivity.
  - reflexivity.
  - reflexivity.
  - reflexivity.
  - simpl. lia.
  - simpl. lia.
Defined.

(** X9, witness: the nested action is of a type the router of [Mail]
    does not interpret. *)
Lemma navigate_with_declined_action_switches_witness :
  getStateForAction mapCanonical mailSettings
    (navigateWith "Mail" refreshAction) (Some mailStateOnProfile)
    (MkStore 13 ∅)
  = (Ret (Some (with_index 13 mailStateOnProfile (Some (Z.of_nat 0)))),
     MkStore 14 ∅).
Proof.
  apply (navigate_with_declined_action_switches mapCanonical mailSettings
           (navigateWith "Mail" refreshAction) mailStateOnProfile mailRoutes
           "Mail" 0 inboxRouter refreshAction None (Some mailRoute)
           (MkStore 13 ∅) (MkStore 13 ∅)).
  - reflexivity.
  - reflexivity.
  - discriminate.
  - split; [reflexivity|]. intros j Hj. lia.
  - discriminate.
  - reflexivity.
  - reflexivity.
  - reflexivity.
  - right. reflexivity.
Defined.

(** X10, witness: the outer leaf tab [Profile] is active, [Inbox] is a
    tab of the router of [Mail] only. *)
Lemma background_change_takes_focus_witness :
  ∃ s' rs',
    getStateForAction mapCanonical mailSettings
      (NavigationActions_navigate "Inbox") (Some mailStateDeep)
      (MkStore 15 ∅)
    = (Ret (Some s'), MkStore 18 ∅)
    ∧ s' = MkRoute 17 None None None (Some 0%Z) (Some rs') []
    ∧ rs' = MkArray 16
              [Some (with_index 15 (with_index 10 mailRoute (Some 1%Z))
                       (Some 0%Z));
               Some (tab_route 7 None "Profile")]
              []
    ∧ differs s' (Some mailStateDeep) = true
    ∧ arr_ref rs' ≠ 11.
Proof.
  refine (background_change_takes_focus mapCanonical mailSettings
            (NavigationActions_navigate "Inbox") mailStateDeep
            (MkArray 11
               [Some (with_index 10 mailRoute (Some 1%Z));
                Some (tab_route 7 None "Profile")]
               [])
            0 "Mail" inboxRouter
            (with_index 15 (with_index 10 mailRoute (Some 1%Z)) (Some 0%Z))
            (MkStore 15 ∅) (MkStore 16 ∅) _ _ _ _ _ _ _ _ _ _ _ _ _ _).
  - reflexivity.
  - simpl. lia.
  - discriminate.
  - intros _ T [= <-] Hin.
    repeat (apply elem_of_cons in Hin as [Hin | Hin]; [discriminate|]).
    by apply elem_of_nil in Hin.
  - left. reflexivity.
  - reflexivity.
  - reflexivity.
  - discriminate.
  - reflexivity.
  - intros i name Hi. lia.
  - reflexivity.
  - reflexivity.
  - simpl. lia.
  - simpl. lia.
Defined.

(** X11, witness. *)
Lemma decode_over_leaf_tabs_witness :
  ∃ res,
    getActionForPathAndParams profileSettings "profile" None profileStore
    = (Ret res, profileStore)
    ∧ match res with
      | Some act =>
          ∃ i name,
            act = MkAction NAVIGATE None (Some name) None None
            ∧ order profileSettings !! i = Some name
            ∧ table profileStore (paths profileSettings) !! name
              = head (split "/" "profile")
            ∧ ∀ j n, j < i → order profileSettings !! j = Some n →
                     table profileStore (paths profileSettings) !! n
                     ≠ head (split "/" "profile")
      | None =>
          ∀ name, name ∈ order profileSettings →
                  table profileStore (paths profileSettings) !! name
                  ≠ head (split "/" "profile")
      end.
Proof.
  exact (decode_over_leaf_tabs profileSettings "profile" None profileStore
           eq_refl).
Defined.

(** X12, witness. *)
Lemma leaf_path_round_trip_witness :
  ∃ pp,
    getPathAndParamsForState profileSettings profileState profileStore
    = (Ret pp, profileStore)
    ∧ getActionForPathAndParams profileSettings (key_of (pp_path pp))
        (pp_params pp) profileStore
      = (Ret (Some (MkAction NAVIGATE None (Some "Profile") None None)),
         profileStore).
Proof.
  apply (leaf_path_round_trip profileSettings profileState profileRoutes 1
           "Profile" (MkRouteConfig (Some (MkScreen None)) (Some "profile"))
           (tab_route 2 None "Profile") "profile" profileStore);
    try reflexivity.
  intros j n Hj Hn. destruct j as [|j]; [|lia].
  injection Hn as <-. vm_compute. discriminate.
Defined.

(** X13, witness: [Profile] sits at ["user/profile"]; the path ["home"]
    decodes to [Home]. *)
Lemma slash_segment_is_never_decoded_witness :
  a_routeName (NavigationActions_navigate "Home") ≠ Some "Profile".
Proof.
  apply (slash_segment_is_never_decoded profileSettings "home" None "Profile"
           "user/profile" (NavigationActions_navigate "Home") deepPathStore
           deepPathStore);
    reflexivity.
Defined.

(** X14, witness. *)
Lemma decode_hands_rest_to_child_witness :
  getActionForPathAndParams folderSettings ("mail" ++ "/" ++ "inbox/unread")
    None folderStore
  = (Ret (Some (MkAction NAVIGATE None (Some "Mail") None
                  (Some (NavigationActions_navigate "inbox/unread")))),
     folderStore).
Proof.
  apply (decode_hands_rest_to_child folderSettings 1 "Mail" folderRouter
           (fun path0 _ => ret (Some (NavigationActions_navigate path0)))
           "mail" "inbox/unread" None
           (Some (NavigationActions_navigate "inbox/unread")) folderStore
           folderStore);
    try reflexivity.
  intros j n Hj Hn. destruct j as [|[|j]]; [| lia | discriminate].
  injection Hn as <-. vm_compute. discriminate.
Defined.

(** X15, witness: the child's [folder] wins, the route's [user] stays. *)
Lemma encode_navigator_tab_witness :
  ∃ pp,
    getPathAndParamsForState folderSettings folderState folderStore
    = (Ret pp, folderStore)
    ∧ pp_path pp = Some ("mail" ++ "/" ++ "inbox/unread")
    ∧ ∃ m, pp_params pp = Some m
           ∧ ∀ key,
               m !! key
               = match ({[ "folder" := "unread" ]} : Params) !! key with
                 | Some v => Some v
                 | None =>
                     ({[ "folder" := "all"; "user" := "ann" ]} : Params)
                       !! key
                 end.
Proof.
  refine (encode_navigator_tab folderSettings folderState
           (MkArray 3
              [Some (tab_route 1 None "Home");
               Some (MkRoute 2 (Some "Mail") (Some "Mail")
                       (Some {[ "folder" := "all"; "user" := "ann" ]})
                       None None [])]
              [])
           1 "Mail"
           (MkRouteConfig (Some (MkScreen (Some folderRouter))) (Some "mail"))
           folderRouter
           (MkRoute 2 (Some "Mail") (Some "Mail")
              (Some {[ "folder" := "all"; "user" := "ann" ]}) None None [])
           "mail"
           (MkPathAndParams (Some "inbox/unread")
              (Some {[ "folder" := "unread" ]}))
           folderStore folderStore _ _ _ _ _ _ _ _);
    reflexivity.
Defined.

(** X16, witness. *)
Lemma component_of_leaf_tab_witness :
  getComponentForState noChildComponent homeSettings (homeState 1) emptyStore
  = (Ret (MkScreen None), emptyStore)
  ∧ getComponentForRouteName homeSettings (Some "Settings") emptyStore
    = (Ret (MkScreen None), emptyStore).
Proof.
  apply (component_of_leaf_tab noChildComponent homeSettings (homeState 1) 1
           "Settings" leafTab (MkScreen None) emptyStore);
    try reflexivity.
  discriminate.
Defined.

(** X17, witness: two tabs, [index = 2]. *)
Lemma component_of_unknown_index_is_fatal_witness :
  getComponentForState noChildComponent homeSettings (homeState 2) emptyStore
  = (Throw InvariantViolation, emptyStore).
Proof.
  apply (component_of_unknown_index_is_fatal noChildComponent homeSettings
           (homeState 2) emptyStore).
  intros k name Hk Hname. injection Hk as Hk.
  assert (k = 2) as -> by lia. discriminate.
Defined.

(** X18, witness: [order] names [toString].  Route configurations
    written as an object literal inherit it and the factory returns a
    router; route configurations without a prototype do not, and it
    returns none. *)
Lemma factory_succeeds_iff_witness :
  (∃ R σ1,
      TabRouter mapCanonical acceptRouteConfigs plainObject homeTabs
        inheritedConfig emptyStore
      = (Ret R, σ1))
  ∧ ¬ (∃ R σ1,
         TabRouter mapCanonical acceptRouteConfigs bareObject homeTabs
           inheritedConfig emptyStore
         = (Ret R, σ1)).
Proof.
  split.
  - apply (factory_succeeds_iff mapCanonical acceptRouteConfigs plainObject
             homeTabs inheritedConfig emptyStore emptyStore eq_refl).
    split.
    + intros n Hn.
      repeat (apply elem_of_cons in Hn as [-> | Hn]; [by eexists|]).
      by apply elem_of_nil in Hn.
    + simpl. discriminate.
  - intros Hrun.
    apply (factory_succeeds_iff mapCanonical acceptRouteConfigs bareObject
             homeTabs inheritedConfig emptyStore emptyStore eq_refl) in Hrun
      as [Hall _].
    destruct (Hall "toString") as [c Hc]; [right; left|]. discriminate Hc.
Defined.

(** X19, witness: [order] lists [Profile], the route configurations do
    not; and [order] lists [toString], of which route configurations
    without a prototype know nothing. *)
Lemma factory_needs_every_tab_configured_witness :
  (∃ σ',
      TabRouter mapCanonical acceptRouteConfigs plainObject homeTabs
        strayConfig emptyStore
      = (Throw TypeError, σ'))
  ∧ (∃ σ',
       TabRouter mapCanonical acceptRouteConfigs bareObject homeTabs
         inheritedConfig emptyStore
       = (Throw TypeError, σ')).
Proof.
  split.
  - apply (factory_needs_every_tab_configured mapCanonical acceptRouteConfigs
             plainObject homeTabs strayConfig emptyStore emptyStore "Profile").
    + reflexivity.
    + simpl. right. left.
    + reflexivity.
  - apply (factory_needs_every_tab_configured mapCanonical acceptRouteConfigs
             bareObject homeTabs inheritedConfig emptyStore emptyStore
             "toString").
    + reflexivity.
    + simpl. right. left.
    + reflexivity.
Defined.

(** X20, witness. *)
Lemma factory_rejects_unknown_initial_route_witness :
  ∃ σ',
    TabRouter mapCanonical acceptRouteConfigs plainObject homeTabs lostConfig
      emptyStore
    = (Throw InvariantViolation, σ').
Proof.
  apply (factory_rejects_unknown_initial_route mapCanonical acceptRouteConfigs
           plainObject homeTabs lostConfig emptyStore emptyStore "Profile").
  - reflexivity.
  - intros n Hn.
    repeat (apply elem_of_cons in Hn as [-> | Hn]; [by eexists|]).
    by apply elem_of_nil in Hn.
  - reflexivity.
  - intros Hin.
    repeat (apply elem_of_cons in Hin as [Hin | Hin]; [discriminate|]).
    by apply elem_of_nil in Hin.
Defined.

(** X21, witness: the settings built over the supplied [paths] object. *)
Lemma factory_settings_witness :
  (∃ k name,
      initialRouteIndex profileSettings = Z.of_nat k
      ∧ initialRouteName profileSettings = Some name
      ∧ position_of profileSettings name k
      ∧ match truthy (cfg_initialRouteName profileConfig) with
        | Some n => name = n
        | None => k = 0
        end)
  ∧ (shouldBackNavigateToInitialRoute profileSettings = true
     ↔ truthy (cfg_backBehavior profileConfig) = None
       ∨ cfg_backBehavior profileConfig = Some "initialRoute")
  ∧ (∀ name, name ∈ order profileSettings →
       ∃ routeConfig,
         routeConfig_of plainObject profileTabs name = Some routeConfig
         ∧ tabRouter_of profileSettings name = screen routeConfig ≫= router).
Proof.
  exact (factory_settings acceptRouteConfigs plainObject profileTabs
           profileConfig suppliedStore profileSettings profileStore eq_refl).
Defined.

(** X22, witness: no tab sits at ["archive"]. *)
Lemma decode_falls_back_to_child_router_witness :
  getActionForPathAndParams folderSettings "archive" None folderStore
  = (Ret (Some (NavigationActions_navigate "archive")), folderStore).
Proof.
  apply (decode_falls_back_to_child_router folderSettings "archive" None 1
           "Mail" folderRouter
           (fun path0 _ => ret (Some (NavigationActions_navigate path0)))
           (Some (NavigationActions_navigate "archive")) folderStore
           folderStore);
    try reflexivity.
  - intros n Hn.
    repeat (apply elem_of_cons in Hn as [-> | Hn];
            [vm_compute; discriminate|]).
    by apply elem_of_nil in Hn.
  - intros j n Hj Hn. destruct j as [|[|j]]; [| lia | discriminate].
    injection Hn as <-. reflexivity.
Defined.

(** X23, witness: the router of [Chat] has no decoder. *)
Lemma decode_needs_child_decoders_witness :
  getActionForPathAndParams chatSettings "inbox" None chatStore
  = (Throw TypeError, chatStore).
Proof.
  apply (decode_needs_child_decoders chatSettings "inbox" None 2 "Chat"
           decliningRouter chatStore);
    try reflexivity.
  - intros n Hn.
    repeat (apply elem_of_cons in Hn as [-> | Hn];
            [vm_compute; discriminate|]).
    by apply elem_of_nil in Hn.
  - intros j n Hj Hn. destruct j as [|[|j]]; [| | lia]; by injection Hn as <-.
Defined.

(** X24, witness: two tabs, [index = 5], BACK with a key. *)
Lemma broken_state_is_a_type_error_witness :
  getStateForAction mapCanonical homeSettings (backAction (Some "Home"))
    (Some (homeState 5)) (MkStore 5 ∅)
  = (Throw TypeError, MkStore 5 ∅).
Proof.
  apply (broken_state_is_a_type_error mapCanonical homeSettings
           (backAction (Some "Home")) (homeState 5) (MkStore 5 ∅)).
  right. exists homeRoutes, "Home". split_and!; reflexivity.
Defined.
